(** * The offer lifecycle and the awarding job of the prediction game

    A shallow embedding of [portfolio.service.ts] (commitment creation and the
    awarding job), of the offer service (generation, pricing sync, listing)
    and of the portfolio repository, followed by the properties of the
    specification that concern them.

    JavaScript numbers that carry prices, percentage changes and points are
    kept abstract (a type [num] with the literal [0] and the operator [+]),
    so that nothing proved here depends on an algebraic law that floating
    point arithmetic lacks.  Day indices are integers.  The [_id] of a
    document and the references to users and offers are [ObjectId]s; the
    services pass identifiers around as strings, which the portfolio
    repository turns back into [ObjectId]s. *)

From stdpp Require Import gmap strings list pretty.
From Stdlib Require Import ZArith Lia Ascii.

Local Open Scope string_scope.
Local Open Scope Z_scope.

(** ** Exceptions *)

(** The exceptions the services throw, the [TypeError] of the engine, the
    [BSONError] of [new ObjectId] and the [ValidationError] of Mongoose; the
    messages of the last two are those of the libraries and are left out. *)
Inductive Exn : Set :=
| BadRequestException (msg : string)
| Error (msg : string)
| TypeError (msg : string)
| BSONError
| ValidationError.

#[global] Instance Exn_eq_dec : EqDecision Exn.
Proof. solve_decision. Defined.

Inductive Result (A : Type) : Type :=
| Ok (a : A)
| Throw (e : Exn).
Arguments Ok {A} _.
Arguments Throw {A} _.

(** ** Identifiers *)

(** The hexadecimal digits, and the lowercase digit of one. *)
Definition isHexDigit (c : ascii) : bool :=
  existsb (Ascii.eqb c) (String.list_ascii_of_string "0123456789abcdefABCDEF").

Definition isLowerHexDigit (c : ascii) : bool :=
  existsb (Ascii.eqb c) (String.list_ascii_of_string "0123456789abcdef").

Definition toLowerHexDigit (c : ascii) : ascii :=
  if Ascii.eqb c "A" then "a"%char
  else if Ascii.eqb c "B" then "b"%char
  else if Ascii.eqb c "C" then "c"%char
  else if Ascii.eqb c "D" then "d"%char
  else if Ascii.eqb c "E" then "e"%char
  else if Ascii.eqb c "F" then "f"%char
  else c.

Fixpoint everyChar (f : ascii → bool) (s : string) : bool :=
  match s with
  | EmptyString => true
  | String c rest => f c && everyChar f rest
  end.

Fixpoint mapChars (f : ascii → ascii) (s : string) : string :=
  match s with
  | EmptyString => EmptyString
  | String c rest => String (f c) (mapChars f rest)
  end.

(** The test that [new ObjectId] makes on a string: its length is 24 and
    it matches [/^[0-9a-fA-F]{24}$/]. *)
Definition isHex24 (s : string) : bool :=
  bool_decide (String.length s = 24%nat) && everyChar isHexDigit s.

Definition isLowerHex24 (s : string) : bool :=
  bool_decide (String.length s = 24%nat) && everyChar isLowerHexDigit s.

(** An [ObjectId] of the bson library: twelve bytes, kept as the
    twenty-four lowercase hexadecimal digits that [toHexString], and so
    [toString], renders them as. *)
Record ObjectId : Set := mkObjectId {
  toHexString : string;
  toHexString_ok : Is_true (isLowerHex24 toHexString)
}.
Coercion toHexString : ObjectId >-> string.

(** [new ObjectId(input)] on a string, as of version 6 of the library:
    twenty-four hexadecimal digits of either case are read as the twelve
    bytes they denote, and any other string is refused with a
    [BSONError]. *)
Definition newObjectId (input : string) : Result ObjectId :=
  if isHex24 input then
    match decide (Is_true (isLowerHex24 (mapChars toLowerHexDigit input))) with
    | left ok => Ok (mkObjectId (mapChars toLowerHexDigit input) ok)
    | right _ => Throw BSONError
    end
  else Throw BSONError.

(** [ids.map((id) => new ObjectId(id))]: the first string that is refused
    ends the map. *)
Fixpoint newObjectIds (ids : list string) : Result (list ObjectId) :=
  match ids with
  | [] => Ok []
  | id :: rest =>
      match newObjectId id with
      | Throw e => Throw e
      | Ok i =>
          match newObjectIds rest with
          | Throw e => Throw e
          | Ok others => Ok (i :: others)
          end
      end
  end.

#[global] Instance ObjectId_eq_dec : EqDecision ObjectId.
Proof.
  intros [x Hx] [y Hy]. destruct (decide (x = y)) as [E|E].
  - left. subst y. f_equal. apply proof_irrel.
  - right. by intros [= ?].
Defined.

#[global] Instance ObjectId_countable : Countable ObjectId :=
  inj_countable'
    (λ i, toHexString i ↾ toHexString_ok i
          : { s : string | Is_true (isLowerHex24 s) })
    (λ x, mkObjectId (`x) (proj2_sig x))
    (λ i, match i with mkObjectId _ _ => eq_refl end).

(** ** Data model *)

Inductive OfferStatus : Set :=
| WaitingForPricing
| WaitingForCompletion
| Completed.

#[global] Instance OfferStatus_eq_dec : EqDecision OfferStatus.
Proof. solve_decision. Defined.

Record TokenOffer : Set := mkTokenOffer {
  firstToken : string;
  secondToken : string
}.

(** What the pricing gateway answers for a token and a day. *)
Record Pricing (num : Type) : Type := mkPricing {
  startDayPrice : num;
  endDayPrice : num
}.
Arguments mkPricing {num} _ _.
Arguments startDayPrice {num} _.
Arguments endDayPrice {num} _.

(** An offer document.  [oid] is the [_id] of the document. *)
Record Offer (num : Type) : Type := mkOffer {
  oid : ObjectId;
  day : Z;
  date : Z;
  tokenOffers : list TokenOffer;
  offerStatus : OfferStatus;
  pricingChanges : gmap string num
}.
Arguments mkOffer {num} _ _ _ _ _ _.
Arguments oid {num} _.
Arguments day {num} _.
Arguments date {num} _.
Arguments tokenOffers {num} _.
Arguments offerStatus {num} _.
Arguments pricingChanges {num} _.

(** A portfolio document: the commitment of one user to one offer.
    [earnedPoints] is absent until the portfolio is awarded. *)
Record Portfolio (num : Type) : Type := mkPortfolio {
  pid : ObjectId;
  user : ObjectId;
  offer : ObjectId;
  selectedTokens : list string;
  isAwarded : bool;
  earnedPoints : option num
}.
Arguments mkPortfolio {num} _ _ _ _ _ _.
Arguments pid {num} _.
Arguments user {num} _.
Arguments offer {num} _.
Arguments selectedTokens {num} _.
Arguments isAwarded {num} _.
Arguments earnedPoints {num} _.

(** The user schema of [user.schema.ts]. *)
Record User (num : Type) : Type := mkUser {
  fid : Z;
  balance : num;
  name : string;
  imageUrl : string
}.
Arguments mkUser {num} _ _ _ _.
Arguments fid {num} _.
Arguments balance {num} _.
Arguments name {num} _.
Arguments imageUrl {num} _.

(** [getId()] of [MongoPortfolioOfferEntity], and the accessors of the
    portfolio entity that answer an identifier: each is the [toString()] of
    an [ObjectId] of the document. *)
Definition getId {num} (o : Offer num) : string := oid o.
Definition getOfferId {num} (p : Portfolio num) : string := offer p.

(** ** Effects *)

Inductive Collection : Set := OfferStore | PortfolioStore | UserLedger.

(** Every call that reaches a store and every line handed to the logger is
    recorded, oldest first. *)
Inductive Event : Set :=
| Fetch (c : Collection)
| Persist (c : Collection)
| LogLine (msg : string)
| LogError (msg : string) (error : Exn).

#[global] Instance Collection_eq_dec : EqDecision Collection.
Proof. solve_decision. Defined.
#[global] Instance Event_eq_dec : EqDecision Event.
Proof. solve_decision. Defined.

Definition isWrite (e : Event) : bool :=
  match e with Persist _ => true | _ => false end.

Definition isStoreCall (e : Event) : bool :=
  match e with Fetch _ | Persist _ => true | _ => false end.

(** The three collections, the users under their identifier, the counter
    of the identifiers handed out so far, the number of samples drawn so
    far and the trace. *)
Record State (num : Type) : Type := mkState {
  offers : list (Offer num);
  portfolios : list (Portfolio num);
  users : gmap ObjectId (User num);
  nextId : nat;
  draws : nat;
  trace : list Event
}.
Arguments mkState {num} _ _ _ _ _ _.
Arguments offers {num} _.
Arguments portfolios {num} _.
Arguments users {num} _.
Arguments nextId {num} _.
Arguments draws {num} _.
Arguments trace {num} _.

Definition M (num A : Type) : Type := State num → Result A * State num.

#[global] Instance M_ret {num} : MRet (M num) :=
  λ A a s, (Ok a, s).

#[global] Instance M_bind {num} : MBind (M num) :=
  λ A B k m s,
    match m s with
    | (Ok a, s') => k a s'
    | (Throw e, s') => (Throw e, s')
    end.

Definition throw {num A} (e : Exn) : M num A := λ s, (Throw e, s).

Definition liftResult {num A} (r : Result A) : M num A := λ s, (r, s).

(** [try { body } catch (error) { handler error }] *)
Definition tryCatch {num A} (body : M num A) (handler : Exn → M num A)
  : M num A :=
  λ s, match body s with
       | (Ok a, s') => (Ok a, s')
       | (Throw e, s') => handler e s'
       end.

Definition emit {num} (e : Event) : M num unit :=
  λ s, (Ok (), mkState (offers s) (portfolios s) (users s) (nextId s)
                       (draws s) (trace s ++ [e])).

Definition get {num} : M num (State num) := λ s, (Ok s, s).

(** [for (const x of xs) { body x }] *)
Fixpoint forOf {num A} (xs : list A) (body : A → M num unit) : M num unit :=
  match xs with
  | [] => mret ()
  | x :: rest => body x ;; forOf rest body
  end.

(** The state a computation ends in, and what it returns. *)
Definition exec {num A} (m : M num A) (s : State num) : State num := (m s).2.
Definition eval {num A} (m : M num A) (s : State num) : Result A := (m s).1.

(** The events a run added to the trace. *)
Definition added {num} (s s' : State num) : list Event :=
  drop (length (trace s)) (trace s').


(** ** Sample data *)

Module Sample.

(** Integer points, day 100, a universe of fourteen tokens, samples taken
    from either end of it, and a gateway that has no price for SOL. *)
Definition today : Z := 100.
Definition dateOf (d : Z) : Z := d * 86400000.
Definition percentage (startPrice endPrice : Z) : Z :=
  (endPrice - startPrice) * 100 / startPrice.
Definition universe : list string :=
  ["BTC"; "ETH"; "SOL"; "ADA"; "DOT"; "XRP"; "LTC"; "BNB"; "TRX"; "UNI";
   "ARB"; "OP"; "ATOM"; "NEAR"].
Definition sampler (k : nat) (l : list string) (n : nat) : list string :=
  if Nat.even k then take n l else take n (reverse l).
Definition gateway (t : string) (d : Z) : option (Pricing Z) :=
  if bool_decide (t = "SOL") then None else Some (mkPricing 100 105).

(** The identifiers of the sample documents: users, offers waiting for
    completion, portfolios, offers waiting for their prices. *)
Definition u1 : ObjectId := mkObjectId "00000000000000000000aa01" I.
Definition u2 : ObjectId := mkObjectId "00000000000000000000aa02" I.
Definition w1 : ObjectId := mkObjectId "00000000000000000000bb01" I.
Definition w2 : ObjectId := mkObjectId "00000000000000000000bb02" I.
Definition p0 : ObjectId := mkObjectId "00000000000000000000cc00" I.
Definition p1 : ObjectId := mkObjectId "00000000000000000000cc01" I.
Definition p2 : ObjectId := mkObjectId "00000000000000000000cc02" I.
Definition p3 : ObjectId := mkObjectId "00000000000000000000cc03" I.
Definition o1 : ObjectId := mkObjectId "00000000000000000000dd01" I.
Definition o2 : ObjectId := mkObjectId "00000000000000000000dd02" I.
Definition o3 : ObjectId := mkObjectId "00000000000000000000dd03" I.
Definition o4 : ObjectId := mkObjectId "00000000000000000000dd04" I.

(** An identifier of no stored document, and two strings that are no
    identifier at all. *)
Definition unknownId : ObjectId := mkObjectId "00000000000000000000ee01" I.
Definition malformed : string := "zz".
Definition tooShort : string := "00000000000000000000aa0".

(** The identifiers the database hands out: the counter, in hexadecimal. *)
Fixpoint hexDigits (width : nat) (n : N) (acc : string) : string :=
  match width with
  | O => acc
  | S width' =>
      hexDigits width' (n / 16)
        (String (nth (N.to_nat (n mod 16))
                     (String.list_ascii_of_string "0123456789abcdef")
                     "0"%char)
                acc)
  end.
Definition newId (n : nat) : ObjectId :=
  match newObjectId (hexDigits 24 (N.of_nat n) "") with
  | Ok i => i
  | Throw _ => unknownId
  end.

Definition alice : User Z := mkUser 1 1000 "alice" "".
Definition bob : User Z := mkUser 2 1000 "bob" "".
Definition ledger : gmap ObjectId (User Z) :=
  <[u1 := alice]> (<[u2 := bob]> ∅).

Definition changes : gmap string Z := <["A" := 5]> (<["B" := -3]> ∅).

(** An offer waiting for completion, with the pair (A, B), and one that has
    no portfolio. *)
Definition scored : Offer Z :=
  mkOffer w1 99 (dateOf 99) [mkTokenOffer "A" "B"] WaitingForCompletion
          changes.
Definition lonely : Offer Z :=
  mkOffer w2 98 (dateOf 98) [mkTokenOffer "A" "B"] WaitingForCompletion
          changes.

Definition pickA : Portfolio Z := mkPortfolio p1 u1 w1 ["A"] false None.
Definition pickB : Portfolio Z := mkPortfolio p2 u2 w1 ["B"] false None.
(** A portfolio with a token that is not of the offer, as [create] lets
    through. *)
Definition pickC : Portfolio Z := mkPortfolio p0 u1 w1 ["C"] false None.
Definition pickA2 : Portfolio Z := mkPortfolio p2 u2 w1 ["A"] false None.

Definition sound : State Z :=
  mkState [scored; lonely] [pickA; pickB] ledger 0 0 [].
Definition spoiled : State Z :=
  mkState [scored] [pickC; pickA2] ledger 0 0 [].

(** Two offers due for pricing; the first has SOL among its tokens. *)
Definition withSol : Offer Z :=
  mkOffer o1 99 (dateOf 99)
          [mkTokenOffer "BTC" "ETH"; mkTokenOffer "SOL" "ADA"]
          WaitingForPricing ∅.
Definition withoutSol : Offer Z :=
  mkOffer o2 100 (dateOf 100) [mkTokenOffer "DOT" "XRP"]
          WaitingForPricing ∅.
Definition unpriced : State Z :=
  mkState [withSol; withoutSol] [] ledger 0 0 [].

(** An offer of the next day, open to commitments. *)
Definition tomorrow : Offer Z :=
  mkOffer o3 101 (dateOf 101) [mkTokenOffer "BTC" "ETH"]
          WaitingForPricing ∅.
Definition committing : State Z :=
  mkState [withoutSol; tomorrow] [] ledger 0 0 [].

(** Offers queued up to day 104. *)
Definition queued : Offer Z :=
  mkOffer o4 104 (dateOf 104) [mkTokenOffer "BTC" "ETH"]
          WaitingForPricing ∅.
Definition ahead : State Z :=
  mkState [withoutSol; queued; tomorrow] [] ledger 0 0 [].

Definition fresh : State Z := mkState [] [] ∅ 0 0 [].

(** A portfolio on the offer of day 100, and the commitment [create]
    stores first in [committing]. *)
Definition pickDot : Portfolio Z :=
  mkPortfolio p3 u1 o2 ["DOT"] false None.
Definition committed : Portfolio Z :=
  mkPortfolio (newId 0) u1 o3 ["BTC"] false None.

(** The store of the next day once the second user has committed. *)
Definition bobsPick : Portfolio Z :=
  mkPortfolio p3 u2 o3 ["ETH"] false None.
Definition joined : State Z :=
  mkState [withoutSol; tomorrow] [bobsPick] ledger 0 0 [].

End Sample.

(** ** The stores and the two services *)

Section Game.

Context {num : Type}.

(** The literal [0] and the operator [+] on numbers. *)
Variable zero : num.
Variable add : num → num → num.

(** [calculatePercentageChange(startDayPrice, endDayPrice)] of the common
    utilities. *)
Variable calculatePercentageChange : num → num → num.

(** [getCurrentDayInUtc()] and [getDateFromUtcDay(day)]; a date is its
    epoch time. *)
Variable currentDay : Z.
Variable getDateFromUtcDay : Z → Z.

(** The token universe [tokens] of [@portfolio/data/tokens]. *)
Variable tokens : list string.

(** The [k]-th answer of lodash's [sampleSize] in a run of the process. *)
Variable sampleSize : nat → list string → nat → list string.

(** [coinsApi.getCoinPriceForDay(token, day)]; [None] is the absence
    signal. *)
Variable getCoinPriceForDay : string → Z → option (Pricing num).

(** The [n]-th identifier the database hands out. *)
Variable objectId : nat → ObjectId.

Local Abbreviation State := (State num).
Local Abbreviation Offer := (Offer num).
Local Abbreviation Portfolio := (Portfolio num).
Local Abbreviation User := (User num).
Local Abbreviation M := (M num).

Definition setTrace (s : State) (t : list Event) : State :=
  mkState (offers s) (portfolios s) (users s) (nextId s) (draws s) t.
Definition setOffers (s : State) (os : list Offer) : State :=
  mkState os (portfolios s) (users s) (nextId s) (draws s) (trace s).
Definition setPortfolios (s : State) (ps : list Portfolio) : State :=
  mkState (offers s) ps (users s) (nextId s) (draws s) (trace s).
Definition setUsers (s : State) (us : gmap ObjectId User) : State :=
  mkState (offers s) (portfolios s) us (nextId s) (draws s) (trace s).

Definition log (msg : string) : M unit := emit (LogLine msg).
Definition logError (msg : string) (error : Exn) : M unit :=
  emit (LogError msg error).

(** The document that an identifier, given as a string, names; a string
    that is no [ObjectId] names none.  The lookups of the offer store and
    of the user ledger, which are not part of the sources, are written with
    these. *)
Definition offerById (id : string) (os : list Offer) : option Offer :=
  match newObjectId id with
  | Ok _id => List.find (λ o, bool_decide (oid o = _id)) os
  | Throw _ => None
  end.

Definition portfolioById (id : string) (ps : list Portfolio)
  : option Portfolio :=
  match newObjectId id with
  | Ok _id => List.find (λ p, bool_decide (pid p = _id)) ps
  | Throw _ => None
  end.

Definition userById (id : string) (us : gmap ObjectId User) : option User :=
  match newObjectId id with
  | Ok _id => us !! _id
  | Throw _ => None
  end.

(** *** Portfolio repository ([MongoPortfolioRepository]) *)

Record FindPortfolioEntitiesParams : Set := mkFindPortfolios {
  findUserId : option string;
  findOfferIds : option (list string);
  findIsAwarded : option bool
}.

Record UpdatePortfolioEntityParams : Type := mkUpdatePortfolio {
  updIsAwarded : option bool;
  updEarnedPoints : option num
}.

(** The filter document handed to [portfolioModel.find]: a criterion is
    present only when its parameter is. *)
Record PortfolioFilter : Set := mkPortfolioFilter {
  filterUser : option ObjectId;
  filterOffers : option (list ObjectId);
  filterIsAwarded : option bool
}.

(** Building the filter document of [find]: [new ObjectId(params.userId)]
    first, then [new ObjectId(offerId)] for each offer identifier in turn;
    the first string that is refused throws, and no filter is built. *)
Definition findFilter (params : FindPortfolioEntitiesParams)
  : Result PortfolioFilter :=
  match
    match findUserId params with
    | Some userId =>
        match newObjectId userId with
        | Ok u => Ok (Some u)
        | Throw e => Throw e
        end
    | None => Ok None
    end
  with
  | Throw e => Throw e
  | Ok u =>
      match
        match findOfferIds params with
        | Some offerIds =>
            match newObjectIds offerIds with
            | Ok ids => Ok (Some ids)
            | Throw e => Throw e
            end
        | None => Ok None
        end
      with
      | Throw e => Throw e
      | Ok ids => Ok (mkPortfolioFilter u ids (findIsAwarded params))
      end
  end.

(** The portfolios a filter document selects. *)
Definition matchesFind (query : PortfolioFilter) (p : Portfolio) : bool :=
  match filterUser query with
  | Some u => bool_decide (user p = u)
  | None => true
  end
  && match filterOffers query with
     | Some ids => bool_decide (offer p ∈ ids)
     | None => true
     end
  && match filterIsAwarded query with
     | Some b => bool_decide (isAwarded p = b)
     | None => true
     end.

(** [find(params)]: the filter document is built, which throws when an
    identifier is refused, and then handed to [portfolioModel.find]. *)
Definition portfolioRepository_find (params : FindPortfolioEntitiesParams)
  : M (list Portfolio) :=
  query ← liftResult (findFilter params);
  emit (Fetch PortfolioStore) ;;
  s ← get;
  mret (List.filter (matchesFind query) (portfolios s)).

(** [existsByUserIdAndOfferId(userId, offerId)]: [new ObjectId(userId)],
    then [new ObjectId(offerId)], then [portfolioModel.exists]. *)
Definition portfolioRepository_existsByUserIdAndOfferId
    (userId offerId : string) : M bool :=
  u ← liftResult (newObjectId userId);
  o ← liftResult (newObjectId offerId);
  emit (Fetch PortfolioStore) ;;
  s ← get;
  mret (existsb (λ p, bool_decide (user p = u) && bool_decide (offer p = o))
                (portfolios s)).

(** [portfolioModel.create(params)]: Mongoose casts the strings [user] and
    [offer] to the [ObjectId]s of the schema, and refuses the document when
    one of them is no [ObjectId]. *)
Definition castToObjectId (value : string) : Result ObjectId :=
  match newObjectId value with
  | Ok i => Ok i
  | Throw _ => Throw ValidationError
  end.

(** The insertion itself: the document gets the next identifier. *)
Definition portfolioModel_create
    (u : ObjectId) (selected : list string) (o : ObjectId) (awarded : bool)
  : M Portfolio :=
  λ s,
    let doc := mkPortfolio (objectId (nextId s)) u o selected awarded None in
    (Ok doc,
     mkState (offers s) (portfolios s ++ [doc]) (users s) (S (nextId s))
             (draws s) (trace s ++ [Persist PortfolioStore])).

Definition portfolioRepository_create
    (userId : string) (selected : list string) (offerId : string)
    (awarded : bool) : M Portfolio :=
  u ← liftResult (castToObjectId userId);
  o ← liftResult (castToObjectId offerId);
  portfolioModel_create u selected o awarded.

Definition applyPortfolioUpdate (params : UpdatePortfolioEntityParams)
    (p : Portfolio) : Portfolio :=
  mkPortfolio (pid p) (user p) (offer p) (selectedTokens p)
    (default (isAwarded p) (updIsAwarded params))
    (match updEarnedPoints params with
     | Some e => Some e
     | None => earnedPoints p
     end).

(** The first element that [hit] selects is changed, no other. *)
Fixpoint updateFirst {A} (hit : A → bool) (f : A → A) (l : list A)
  : list A :=
  match l with
  | [] => []
  | x :: rest => if hit x then f x :: rest else x :: updateFirst hit f rest
  end.

(** [portfolioModel.findOneAndUpdate({ _id }, params, { new: true })]: the
    first document with that identifier is changed, no other, and the
    document as it is after the update is answered. *)
Definition portfolioModel_findOneAndUpdate (_id : ObjectId)
    (params : UpdatePortfolioEntityParams) : M (option Portfolio) :=
  λ s,
    let ps := updateFirst (λ p, bool_decide (pid p = _id))
                          (applyPortfolioUpdate params) (portfolios s) in
    (Ok (List.find (λ p, bool_decide (pid p = _id)) ps),
     setTrace (setPortfolios s ps) (trace s ++ [Persist PortfolioStore])).

(** [updateOneById(id, params)]: [new ObjectId(id)] comes before the call
    of the store. *)
Definition portfolioRepository_updateOneById (id : string)
    (params : UpdatePortfolioEntityParams) : M (option Portfolio) :=
  _id ← liftResult (newObjectId id);
  portfolioModel_findOneAndUpdate _id params.

(** *** Offer repository *)

(** Modelled from the spec: [findById(id)] of the Offer Store
    ([PortfolioOfferRepository]), whose implementation is not part of the
    sources: the offer with that identifier. *)
Definition portfolioOfferRepository_findById (id : string)
  : M (option Offer) :=
  emit (Fetch OfferStore) ;;
  s ← get;
  mret (offerById id (offers s)).

(** Modelled from the spec: [findByDay(day)] of the Offer Store, the offer
    of that day. *)
Definition portfolioOfferRepository_findByDay (d : Z) : M (option Offer) :=
  emit (Fetch OfferStore) ;;
  s ← get;
  mret (List.find (λ o, bool_decide (day o = d)) (offers s)).

(** Modelled from the spec: [findByStatus(status, maxDay?)] of the Offer
    Store, the offers in that status whose day is at most [maxDay] when it
    is given. *)
Definition portfolioOfferRepository_findByOfferStatus
    (status : OfferStatus) (maxDay : option Z) : M (list Offer) :=
  emit (Fetch OfferStore) ;;
  s ← get;
  mret (List.filter
          (λ o, bool_decide (offerStatus o = status)
                && match maxDay with
                   | Some d => bool_decide (day o ≤ d)
                   | None => true
                   end)
          (offers s)).

(** Modelled from the spec: the range query [find({fromDay, toDay})] of the
    Offer Store.  The spec gives the result of [listOffersForDays(days)],
    which passes [currentDay - days] and [currentDay + 1], as the days in
    [[currentDay - days, currentDay]]: the lower bound is included and the
    upper bound is not. *)
Definition portfolioOfferRepository_find (fromDay toDay : Z)
  : M (list Offer) :=
  emit (Fetch OfferStore) ;;
  s ← get;
  mret (List.filter
          (λ o, bool_decide (fromDay ≤ day o) && bool_decide (day o < toDay))
          (offers s)).

(** Modelled from the spec: [findLatestByDay()] of the Offer Store, an offer
    of the greatest day, absent when the store is empty. *)
Definition latestOf (os : list Offer) : option Offer :=
  fold_left
    (λ best o,
       match best with
       | Some b => if bool_decide (day b < day o) then Some o else Some b
       | None => Some o
       end)
    os None.

(** Modelled from the spec: [findLatestByDay()] of the Offer Store, reached
    as [findLatest()]. *)
Definition portfolioOfferRepository_findLatest : M (option Offer) :=
  emit (Fetch OfferStore) ;;
  s ← get;
  mret (latestOf (offers s)).

Record CreatePortfolioOfferEntityParams : Set := mkCreateOffer {
  newDay : Z;
  newDate : Z;
  newTokenOffers : list TokenOffer
}.

(** Modelled from the spec: [createMany(offers)] of the Offer Store, one
    batch insert; every new offer starts in [WaitingForPricing] with no
    pricing change. *)
Fixpoint insertOffers (n : nat) (ps : list CreatePortfolioOfferEntityParams)
  : list Offer :=
  match ps with
  | [] => []
  | p :: rest =>
      mkOffer (objectId n) (newDay p) (newDate p) (newTokenOffers p)
              WaitingForPricing ∅
      :: insertOffers (S n) rest
  end.

(** Modelled from the spec: [createMany(offers)] of the Offer Store,
    appending the documents of [insertOffers]. *)
Definition portfolioOfferRepository_createMany
    (ps : list CreatePortfolioOfferEntityParams) : M unit :=
  λ s,
    (Ok (),
     mkState (offers s ++ insertOffers (nextId s) ps) (portfolios s)
             (users s) (nextId s + length ps)%nat (draws s)
             (trace s ++ [Persist OfferStore])).

(** Modelled from the spec: what [updateStatusAndPricing] changes in a
    document, the status and, when given, the pricing changes. *)
Definition applyOfferUpdate (status : OfferStatus)
    (changes : option (gmap string num)) (o : Offer) : Offer :=
  mkOffer (oid o) (day o) (date o) (tokenOffers o) status
          (default (pricingChanges o) changes).

(** Modelled from the spec: [updateStatusAndPricing(id, status,
    pricingChanges?)] of the Offer Store, written as the portfolio
    repository writes its [updateOneById]; a string that is no [ObjectId]
    names no document. *)
Definition portfolioOfferRepository_updateOneById (id : string)
    (status : OfferStatus) (changes : option (gmap string num)) : M unit :=
  λ s,
    (Ok (),
     setTrace
       (setOffers s
          match newObjectId id with
          | Ok _id =>
              updateFirst (λ o, bool_decide (oid o = _id))
                          (applyOfferUpdate status changes) (offers s)
          | Throw _ => offers s
          end)
       (trace s ++ [Persist OfferStore])).

(** *** User service *)

(** Modelled from the spec: [getById(id)] of the User Ledger, the user
    with that identifier. *)
Definition userService_getById (id : string) : M (option User) :=
  emit (Fetch UserLedger) ;;
  s ← get;
  mret (userById id (users s)).

(** Modelled from the spec: [creditPoints(id, amount)] of the User Ledger,
    reached through [userService.update(id, { addPoints })]: an additive
    credit of the balance of that user. *)
Definition creditUser (amount : num) (u : User) : User :=
  mkUser (fid u) (add (balance u) amount) (name u) (imageUrl u).

(** Modelled from the spec: [userService.update(id, { addPoints })], the
    credit of [creditUser] on the user with that identifier; a string that
    is no [ObjectId] names no user. *)
Definition userService_update (id : string) (addPoints : num) : M unit :=
  λ s,
    (Ok (),
     setTrace
       (setUsers s
          match newObjectId id with
          | Ok _id => alter (creditUser addPoints) _id (users s)
          | Throw _ => users s
          end)
       (trace s ++ [Persist UserLedger])).

(** Modelled from the spec: [runInTransaction(fn)] of the Transaction
    Coordinator; when [fn] fails the writes it made are discarded. *)
Definition transactionsManager_useTransaction {A} (fn : M A) : M A :=
  λ s,
    match fn s with
    | (Ok a, s') => (Ok a, s')
    | (Throw e, s') =>
        (Throw e,
         mkState (offers s) (portfolios s) (users s) (nextId s') (draws s')
                 (trace s'))
    end.


(** *** Offer service ([PortfolioOfferServiceImpl]) *)

Definition MAX_DAYS_THRESHOLD : Z := 3.
Definition OFFERS_TO_GENERATE : Z := 7.
Definition MAX_TOKEN_OFFERS : nat := 6.

Definition listOffersForDays (days : Z) : M (list Offer) :=
  portfolioOfferRepository_find (currentDay - days) (currentDay + 1).

Definition listOffersWaitingForCompletion : M (list Offer) :=
  portfolioOfferRepository_findByOfferStatus WaitingForCompletion None.

Definition getByDay (d : Z) : M (option Offer) :=
  portfolioOfferRepository_findByDay d.

Definition markOfferCompleted (offerId : string) : M unit :=
  portfolioOfferRepository_updateOneById offerId Completed None.

Definition getById (id : string) : M (option Offer) :=
  portfolioOfferRepository_findById id.

(** [new Array(MAX_TOKEN_OFFERS).fill(null).map((_, index) => ...)].  Reading
    [availableTokens] past its end gives [undefined] in JavaScript and the
    empty symbol here; it happens only when the universe has fewer than
    twelve symbols. *)
Definition pairTokens (availableTokens : list string) : list TokenOffer :=
  imap (λ index _,
          mkTokenOffer (availableTokens !!! (index * 2)%nat)
                       (availableTokens !!! (index * 2 + 1)%nat))
       (replicate MAX_TOKEN_OFFERS ()).

(** [for (let day = nextOfferDay; day <= upper; day++) { ... }], with
    [fuel] an upper bound of the number of rounds; [k] counts the samples
    drawn. *)
Fixpoint generateLoop (fuel : nat) (d upper : Z) (k : nat)
    (acc : list CreatePortfolioOfferEntityParams)
  : list CreatePortfolioOfferEntityParams * nat :=
  match fuel with
  | O => (acc, k)
  | S fuel' =>
      if bool_decide (d ≤ upper) then
        let availableTokens :=
          sampleSize k tokens (MAX_TOKEN_OFFERS * 2)%nat in
        generateLoop fuel' (d + 1) upper (S k)
          (acc ++ [mkCreateOffer d (getDateFromUtcDay d)
                                 (pairTokens availableTokens)])
      else (acc, k)
  end.

Definition setDraws (k : nat) : M unit :=
  λ s, (Ok (), mkState (offers s) (portfolios s) (users s) (nextId s) k
                       (trace s)).

Definition generateOffers : M unit :=
  lastOffer ← portfolioOfferRepository_findLatest;
  let nextOfferDay :=
    match lastOffer with
    | Some o => day o + 1
    | None => currentDay
    end in
  if bool_decide (nextOfferDay - currentDay > MAX_DAYS_THRESHOLD) then
    mret ()
  else
    s ← get;
    let upper := nextOfferDay + OFFERS_TO_GENERATE in
    let '(batch, k) :=
      generateLoop (Z.to_nat (upper + 1 - nextOfferDay)) nextOfferDay upper
                   (draws s) [] in
    setDraws k ;;
    portfolioOfferRepository_createMany batch.

(** The two locals of one round of [syncOffersPrices]. *)
Record Locals : Type := mkLocals {
  pricingChangesAcc : gmap string num;
  shouldSkipOffer : bool
}.

(** The callback given to [map] in [syncOffersPrices].  When the gateway
    answers nothing the flag is set, and the next statement reads
    [startDayPrice] of that absent answer. *)
Definition tokenHandler (offerDay : Z) (token : string) (l : Locals)
  : Locals * Result unit :=
  let pricing := getCoinPriceForDay token offerDay in
  let l1 :=
    match pricing with
    | None => mkLocals (pricingChangesAcc l) true
    | Some _ => l
    end in
  match pricing with
  | None =>
      (l1, Throw (TypeError "Cannot read properties of null"))
  | Some p =>
      (mkLocals (<[token :=
                   calculatePercentageChange (startDayPrice p)
                                             (endDayPrice p)]>
                   (pricingChangesAcc l1))
                (shouldSkipOffer l1),
       Ok ())
  end.

(** [await Promise.all(handlers)]: every callback runs, and the await
    throws when one of them did (the earliest in the array is reported). *)
Fixpoint promiseAll (handlers : list (Locals → Locals * Result unit))
    (l : Locals) : Locals * Result unit :=
  match handlers with
  | [] => (l, Ok ())
  | h :: rest =>
      let '(l1, r1) := h l in
      let '(l2, r2) := promiseAll rest l1 in
      (l2, match r1 with Ok _ => r2 | Throw e => Throw e end)
  end.

(** [for (const tokenOffer of offer.getTokenOffers()) { ...; if
    (shouldSkipOffer) break; }] *)
Fixpoint tokenLoop (offerDay : Z) (tos : list TokenOffer) (l : Locals)
  : Locals * Result unit :=
  match tos with
  | [] => (l, Ok ())
  | tokenOffer :: rest =>
      match promiseAll
              (List.map (tokenHandler offerDay)
                        [firstToken tokenOffer; secondToken tokenOffer]) l
      with
      | (l', Throw e) => (l', Throw e)
      | (l', Ok _) =>
          if shouldSkipOffer l' then (l', Ok ())
          else tokenLoop offerDay rest l'
      end
  end.

(** How the [try] block of a round ends: by falling through or by
    [continue]. *)
Inductive Completion : Set := Normal | Continue.

Definition syncOfferBody (o : Offer) : M Completion :=
  match tokenLoop (day o) (tokenOffers o) (mkLocals ∅ false) with
  | (_, Throw e) => throw e
  | (l, Ok _) =>
      if shouldSkipOffer l then mret Continue
      else
        portfolioOfferRepository_updateOneById (oid o) WaitingForCompletion
          (Some (pricingChangesAcc l)) ;;
        mret Normal
  end.

Definition syncOffer (o : Offer) : M unit :=
  c ← tryCatch (syncOfferBody o)
        (λ error, logError "Failed to update offer prices" error ;;
                  mret Normal);
  match c with
  | Continue => mret ()
  | Normal => log ("Offer " +:+ oid o +:+ " prices updated")
  end.

Definition syncOffersPrices : M unit :=
  offers ← portfolioOfferRepository_findByOfferStatus WaitingForPricing
             (Some currentDay);
  if bool_decide (length offers = 0%nat) then mret ()
  else forOf offers syncOffer.

(** *** Portfolio service ([PortfolioServiceImpl]) *)

Definition list_ (userId : option string) (offerIds : option (list string))
  : M (list Portfolio) :=
  portfolioRepository_find (mkFindPortfolios userId offerIds None).

Definition listForUserAndOffers (userId : string) (offerIds : list string)
  : M (list Portfolio) :=
  if bool_decide (length offerIds = 0%nat) then
    throw (BadRequestException "At least one offer should be provided.")
  else
    portfolioRepository_find
      (mkFindPortfolios (Some userId) (Some offerIds) None).

(** [Array.prototype.every], the callback receiving the element and its
    index. *)
Fixpoint everyFrom {A} (index : nat) (callback : A → nat → Result bool)
    (l : list A) : Result bool :=
  match l with
  | [] => Ok true
  | x :: rest =>
      match callback x index with
      | Ok true => everyFrom (S index) callback rest
      | Ok false => Ok false
      | Throw e => Throw e
      end
  end.

Definition validateSelectedTokens (selected : list string) (o : Offer)
  : M bool :=
  let tokenOffers := tokenOffers o in
  if bool_decide (length selected ≠ length tokenOffers) then
    throw (BadRequestException "Invalid number of selected tokens")
  else
    liftResult
      (everyFrom 0
         (λ token index,
            match tokenOffers !! index with
            | Some t =>
                Ok (bool_decide (firstToken t = token)
                    || bool_decide (secondToken t = token))
            | None => Throw (TypeError "Cannot read properties of undefined")
            end)
         selected).

Definition create (userId offerId : string) (selected : list string)
  : M Portfolio :=
  o ← getById offerId;
  match o with
  | None => throw (BadRequestException "Provided offer is not found")
  | Some o =>
      u ← userService_getById userId;
      match u with
      | None => throw (BadRequestException "Provided user is not found")
      | Some _ =>
          if bool_decide (day o ≠ currentDay + 1) then
            throw (BadRequestException "Provided offer is not available.")
          else
            validateSelectedTokens selected o ;;
            portfolioForProvidedOfferExists ←
              portfolioRepository_existsByUserIdAndOfferId userId offerId;
            if (portfolioForProvidedOfferExists : bool) then
              throw (BadRequestException
                       "Portfolio for this day already submitted.")
            else
              portfolioRepository_create userId selected offerId false
      end
  end.

(** lodash's [groupBy]: the elements of each key, in their order. *)
Definition groupBy {A} (l : list A) (key : A → string)
  : gmap string (list A) :=
  fold_left (λ acc x, <[key x := (default [] (acc !! key x) ++ [x])%list]> acc)
            l ∅.

(** The [reduce] that sums the percentage changes of the selected tokens,
    from the accumulator [points]. *)
Fixpoint reducePoints (offerPriceChanges : gmap string num) (points : num)
    (selected : list string) : Result num :=
  match selected with
  | [] => Ok points
  | selectedToken :: rest =>
      match offerPriceChanges !! selectedToken with
      | Some percentage =>
          reducePoints offerPriceChanges (add points percentage) rest
      | None => Throw (Error "Percentage change not found for token.")
      end
  end.

Definition awardPortfolio (offerPriceChanges : gmap string num)
    (p : Portfolio) : M unit :=
  points ← liftResult
             (reducePoints offerPriceChanges zero (selectedTokens p));
  transactionsManager_useTransaction
    (portfolioRepository_updateOneById (pid p)
       (mkUpdatePortfolio (Some true) (Some points)) ;;
     userService_update (user p) points).

Definition awardOffer (groupedPortfolios : gmap string (list Portfolio))
    (o : Offer) : M unit :=
  tryCatch
    (let offerPriceChanges := pricingChanges o in
     let portfolios := default [] (groupedPortfolios !! getId o) in
     forOf portfolios (awardPortfolio offerPriceChanges) ;;
     markOfferCompleted (oid o) ;;
     log ("Offer " +:+ oid o +:+ " completed, updated "
          +:+ pretty (length portfolios) +:+ " portfolios."))
    (λ error,
       logError ("Failed to award portfolios for offer: " +:+ oid o) error).

Definition awardPortfolios : M unit :=
  offers ← listOffersWaitingForCompletion;
  portfolios ← portfolioRepository_find
                 (mkFindPortfolios None (Some (List.map getId offers))
                                   (Some false));
  let groupedPortfolios := groupBy portfolios getOfferId in
  forOf offers (awardOffer groupedPortfolios).


(** ** Notions the properties are stated with *)

(** The tokens of an offer, pair after pair. *)
Definition offerTokens (o : Offer) : list string :=
  flat_map (λ t, [firstToken t; secondToken t]) (tokenOffers o).

(** The gateway has a price for every token of the offer on its day. *)
Definition allPriced (o : Offer) : bool :=
  forallb (λ t, bool_decide (is_Some (getCoinPriceForDay t (day o))))
          (offerTokens o).

(** The percentage change of every token of [ts] the gateway prices. *)
Definition priceAll (d : Z) (ts : list string) (acc : gmap string num)
  : gmap string num :=
  fold_left
    (λ m t,
       match getCoinPriceForDay t d with
       | Some p =>
           <[t := calculatePercentageChange (startDayPrice p)
                                            (endDayPrice p)]> m
       | None => m
       end)
    ts acc.

(** An offer [syncOffersPrices] fetches: it waits for its prices and its
    day is not after the current one. *)
Definition dueForPricing (o : Offer) : Prop :=
  offerStatus o = WaitingForPricing ∧ day o ≤ currentDay.

#[local] Instance dueForPricing_dec o : Decision (dueForPricing o).
Proof. unfold dueForPricing. apply _. Defined.

(** The document of a priced offer. *)
Definition pricedOffer (o : Offer) : Offer :=
  mkOffer (oid o) (day o) (date o) (tokenOffers o) WaitingForCompletion
          (priceAll (day o) (offerTokens o) ∅).

(** The day [generateOffers] starts from: one past the latest offer, or the
    current day when there is none. *)
Definition nextDayOf (os : list Offer) : Z :=
  match latestOf os with
  | Some o => day o + 1
  | None => currentDay
  end.

(** [n] offers of consecutive days from [d], the first from the [k]-th
    sample. *)
Fixpoint batchFrom (n : nat) (d : Z) (k : nat)
  : list CreatePortfolioOfferEntityParams :=
  match n with
  | O => []
  | S n' =>
      mkCreateOffer d (getDateFromUtcDay d)
                    (pairTokens (sampleSize k tokens (MAX_TOKEN_OFFERS * 2)))
      :: batchFrom n' (d + 1) (S k)
  end.

(** Every selected token of the portfolio has a pricing change. *)
Definition scorable (changes : gmap string num) (p : Portfolio) : bool :=
  forallb (λ t, bool_decide (is_Some (changes !! t))) (selectedTokens p).

(** The sum, from [0] and from left to right, of the pricing changes of the
    selected tokens. *)
Definition sumOfChanges (changes : gmap string num) (selected : list string)
  : num :=
  fold_left add (omap (λ t, changes !! t) selected) zero.

Definition awardedPortfolio (points : num) (p : Portfolio) : Portfolio :=
  mkPortfolio (pid p) (user p) (offer p) (selectedTokens p) true
              (Some points).

Definition completedOffer (o : Offer) : Offer :=
  mkOffer (oid o) (day o) (date o) (tokenOffers o) Completed
          (pricingChanges o).

(** The portfolios of an offer that are not awarded yet, in stored order. *)
Definition pendingOf (o : Offer) (ps : list Portfolio) : list Portfolio :=
  List.filter (λ p, bool_decide (isAwarded p = false)
                    && bool_decide (offer p = oid o)) ps.

Fixpoint takeWhile {A} (f : A → bool) (l : list A) : list A :=
  match l with
  | [] => []
  | x :: rest => if f x then x :: takeWhile f rest else []
  end.

(** The awards of a group of portfolios under the pricing changes of their
    offer: the portfolios before the first that cannot be scored, each with
    its points. *)
Definition awardsFor (changes : gmap string num) (group : list Portfolio)
  : list (Portfolio * num) :=
  List.map (λ p, (p, sumOfChanges changes (selectedTokens p)))
           (takeWhile (scorable changes) group).

(** The offers that wait for completion, in stored order. *)
Definition awaiting (os : list Offer) : list Offer :=
  List.filter (λ o, bool_decide (offerStatus o = WaitingForCompletion)) os.

(** The awards of a whole run of [awardPortfolios] from a state. *)
Definition awardsOfRun (s : State) : list (Portfolio * num) :=
  flat_map (λ o, awardsFor (pricingChanges o) (pendingOf o (portfolios s)))
           (awaiting (offers s)).

(** The document of a portfolio after the awards [aw]. *)
Definition awardedBy (aw : list (Portfolio * num)) (p : Portfolio)
  : Portfolio :=
  match List.find (λ a, bool_decide (pid a.1 = pid p)) aw with
  | Some a => awardedPortfolio a.2 p
  | None => p
  end.

(** The amounts that the awards [aw] credit to a user, in their order. *)
Definition amountsFor (u : ObjectId) (aw : list (Portfolio * num))
  : list num :=
  List.map snd (List.filter (λ a, bool_decide (user a.1 = u)) aw).

(** Every portfolio of the group can be scored. *)
Definition allScorable (o : Offer) (ps : list Portfolio) : bool :=
  forallb (scorable (pricingChanges o)) (pendingOf o ps).

(** The balance after a list of credits. *)
Definition credited (amounts : list num) (b : num) : num :=
  fold_left add amounts b.

(** Every selected token is one of the two tokens of the pair at its
    position. *)
Definition validSelection (selected : list string) (o : Offer) : Prop :=
  ∀ (i : nat) (t : string),
    selected !! i = Some t →
    ∃ pair, tokenOffers o !! i = Some pair
            ∧ (firstToken pair = t ∨ secondToken pair = t).

(** No user has two portfolios for one offer. *)
Definition onePortfolioPerUserAndOffer (ps : list Portfolio) : Prop :=
  NoDup (List.map (λ p, (user p, offer p)) ps).

(** The exceptions of the two jobs. *)
Definition absentError : Exn := TypeError "Cannot read properties of null".
Definition notFound : Exn := Error "Percentage change not found for token.".

(** What one round of the sync does to the state. *)
Definition syncedState (o : Offer) (s : State) : State :=
  if allPriced o then
    mkState
      (updateFirst (λ x, bool_decide (oid x = oid o))
                   (applyOfferUpdate WaitingForCompletion
                      (Some (priceAll (day o) (offerTokens o) ∅)))
                   (offers s))
      (portfolios s) (users s) (nextId s) (draws s)
      (trace s ++ [Persist OfferStore;
                   LogLine ("Offer " +:+ oid o +:+ " prices updated")])
  else
    setTrace s
      (trace s ++ [LogError "Failed to update offer prices" absentError;
                   LogLine ("Offer " +:+ oid o +:+ " prices updated")]).

(** The three writes of an award round. *)
Definition updPortfolios (ps : list Portfolio) (a : Portfolio * num)
  : list Portfolio :=
  updateFirst (λ x, bool_decide (pid x = pid a.1)) (awardedPortfolio a.2) ps.

Definition updUsers (us : gmap ObjectId User) (a : Portfolio * num)
  : gmap ObjectId User :=
  alter (creditUser a.2) (user a.1) us.

Definition updOffers (os : list Offer) (o : Offer) : list Offer :=
  updateFirst (λ x, bool_decide (oid x = oid o))
              (applyOfferUpdate Completed None) os.

(** What awarding one portfolio does to the state. *)
Definition awardedState (a : Portfolio * num) (s : State) : State :=
  mkState (offers s)
          (updateFirst (λ x, bool_decide (pid x = pid a.1))
                       (awardedPortfolio a.2) (portfolios s))
          (alter (creditUser a.2) (user a.1) (users s))
          (nextId s) (draws s)
          (trace s ++ [Persist PortfolioStore; Persist UserLedger]).

(** What the round of one offer does to the state, [group] being the
    portfolios grouped under the offer. *)
Definition offerAwardedState (group : list Portfolio) (o : Offer)
    (s : State) : State :=
  let st := fold_left (λ st a, awardedState a st)
                      (awardsFor (pricingChanges o) group) s in
  if forallb (scorable (pricingChanges o)) group then
    mkState (updateFirst (λ x, bool_decide (oid x = oid o))
                         (applyOfferUpdate Completed None) (offers st))
            (portfolios st) (users st) (nextId st) (draws st)
            (trace st
             ++ [Persist OfferStore;
                 LogLine ("Offer " +:+ oid o +:+ " completed, updated "
                          +:+ pretty (length group) +:+ " portfolios.")])
  else
    setTrace st
      (trace st
       ++ [LogError ("Failed to award portfolios for offer: " +:+ oid o)
                    notFound]).

(** The state after a run, as a fold over the waiting offers. *)
Definition awardedRun (s : State) : State :=
  fold_left
    (λ st o, offerAwardedState (pendingOf o (portfolios s)) o st)
    (awaiting (offers s))
    (setTrace s (trace s ++ [Fetch OfferStore; Fetch PortfolioStore])).


(** ** Properties *)

Ltac run :=
  repeat (unfold mbind, M_bind, mret, M_ret, emit, get, throw, liftResult,
            tryCatch, log, logError, exec, eval in *;
          cbn [fst snd offers portfolios users nextId draws trace] in *).

Lemma added_app (s s' : State) (es : list Event) :
  trace s' = (trace s ++ es)%list → added s s' = es.
Proof.
  intros E. unfold added. rewrite E. by rewrite drop_app_length.
Qed.

(** A boolean filter is the filter of the property it decides. *)
Lemma filter_bool {A} (f : A → bool) (P : A → Prop)
    `{!∀ x, Decision (P x)} (l : list A) :
  (∀ x, f x = true ↔ P x) → List.filter f l = filter P l.
Proof.
  intros Hf. induction l as [|x l IH]; [done|].
  rewrite filter_cons. simpl. rewrite IH.
  destruct (decide (P x)) as [Hx|Hx].
  - apply Hf in Hx. by rewrite Hx.
  - destruct (f x) eqn:E; [|done]. apply Hf in E. done.
Qed.

(** *** Identifiers given as strings *)

Lemma lowerHexDigit_fixed (c : ascii) :
  isLowerHexDigit c = true → isHexDigit c = true ∧ toLowerHexDigit c = c.
Proof.
  destruct c as [[] [] [] [] [] [] [] []]; vm_compute; intros H;
    first [discriminate H | split; reflexivity].
Qed.

Lemma hexDigit_lowered (c : ascii) :
  isHexDigit c = true → isLowerHexDigit (toLowerHexDigit c) = true.
Proof.
  destruct c as [[] [] [] [] [] [] [] []]; vm_compute; intros H;
    first [discriminate H | reflexivity].
Qed.

Lemma mapChars_length (f : ascii → ascii) (s : string) :
  String.length (mapChars f s) = String.length s.
Proof. induction s as [|c s IH]; [done|]. cbn. by rewrite IH. Qed.

Lemma lowerHex_fixed (s : string) :
  everyChar isLowerHexDigit s = true →
  everyChar isHexDigit s = true ∧ mapChars toLowerHexDigit s = s.
Proof.
  induction s as [|c s IH]; [done|]. cbn [everyChar mapChars]. intros H.
  apply andb_true_iff in H as [Hc Hs].
  destruct (lowerHexDigit_fixed c Hc) as [-> ->].
  destruct (IH Hs) as [-> ->]. done.
Qed.

Lemma hex_lowered (s : string) :
  everyChar isHexDigit s = true →
  everyChar isLowerHexDigit (mapChars toLowerHexDigit s) = true.
Proof.
  induction s as [|c s IH]; [done|]. cbn [everyChar mapChars]. intros H.
  apply andb_true_iff in H as [Hc Hs].
  by rewrite (hexDigit_lowered c Hc), (IH Hs).
Qed.

(** Two identifiers with the same rendering are the same identifier. *)
Lemma toHexString_inj (a b : ObjectId) :
  toHexString a = toHexString b → a = b.
Proof.
  destruct a as [x Hx], b as [y Hy]. cbn. intros ->.
  f_equal. apply proof_irrel.
Qed.

(** [new ObjectId(id.toString())] is [id]: the identifier of a document
    always converts back. *)
Lemma newObjectId_toHexString (i : ObjectId) :
  newObjectId (toHexString i) = Ok i.
Proof.
  destruct i as [x Hx]. unfold newObjectId. cbn [toHexString].
  pose proof Hx as H. apply Is_true_true in H.
  unfold isLowerHex24 in H. apply andb_true_iff in H as [Hlen Hall].
  destruct (lowerHex_fixed x Hall) as [Hhex Hlow].
  unfold isHex24. rewrite Hlen, Hhex. cbn [andb].
  destruct (decide _) as [ok|no].
  - f_equal. apply toHexString_inj. exact Hlow.
  - exfalso. apply no. by rewrite Hlow.
Qed.

Lemma newObjectId_accepts (input : string) :
  isHex24 input = true → ∃ i, newObjectId input = Ok i.
Proof.
  intros H. unfold newObjectId. rewrite H.
  unfold isHex24 in H. apply andb_true_iff in H as [Hlen Hall].
  destruct (decide _) as [ok|no]; [by eexists|].
  exfalso. apply no, Is_true_true. unfold isLowerHex24.
  apply bool_decide_eq_true_1 in Hlen.
  rewrite mapChars_length, hex_lowered by done.
  by rewrite bool_decide_eq_true_2.
Qed.

Lemma newObjectId_refuses (input : string) :
  isHex24 input = false → newObjectId input = Throw BSONError.
Proof. intros H. unfold newObjectId. by rewrite H. Qed.

(** The conversion fails on the strings that are not made of twenty-four
    hexadecimal digits, on no other, and with one error. *)
Lemma newObjectId_cases (input : string) :
  if isHex24 input then ∃ i, newObjectId input = Ok i
  else newObjectId input = Throw BSONError.
Proof.
  destruct (isHex24 input) eqn:H.
  - by apply newObjectId_accepts.
  - by apply newObjectId_refuses.
Qed.

Lemma newObjectId_Throw (input : string) (e : Exn) :
  newObjectId input = Throw e → e = BSONError ∧ isHex24 input = false.
Proof.
  intros E. pose proof (newObjectId_cases input) as H.
  destruct (isHex24 input).
  - destruct H as [i Hi]. congruence.
  - split; [congruence|done].
Qed.

Lemma newObjectId_Ok (input : string) (i : ObjectId) :
  newObjectId input = Ok i → isHex24 input = true.
Proof.
  intros E. pose proof (newObjectId_cases input) as H.
  destruct (isHex24 input); [done|congruence].
Qed.

Lemma newObjectIds_cases (ids : list string) :
  if forallb isHex24 ids then ∃ converted, newObjectIds ids = Ok converted
  else newObjectIds ids = Throw BSONError.
Proof.
  induction ids as [|id ids IH]; [by eexists|].
  cbn [forallb newObjectIds].
  pose proof (newObjectId_cases id) as H.
  destruct (isHex24 id); cbn [andb].
  - destruct H as [i ->]. destruct (forallb isHex24 ids).
    + destruct IH as [converted ->]. by eexists.
    + by rewrite IH.
  - by rewrite H.
Qed.

Lemma newObjectIds_Throw (ids : list string) (e : Exn) :
  newObjectIds ids = Throw e → e = BSONError.
Proof.
  intros E. pose proof (newObjectIds_cases ids) as H.
  destruct (forallb isHex24 ids); [destruct H|]; congruence.
Qed.

(** The identifiers of stored offers always convert back. *)
Lemma newObjectIds_getId (os : list Offer) :
  newObjectIds (List.map getId os) = Ok (List.map oid os).
Proof.
  induction os as [|o os IH]; [done|].
  cbn [List.map newObjectIds]. unfold getId at 1.
  by rewrite newObjectId_toHexString, IH.
Qed.

Lemma bool_decide_toHexString (a b : ObjectId) :
  bool_decide (toHexString a = toHexString b) = bool_decide (a = b).
Proof.
  apply bool_decide_ext. split; [apply toHexString_inj|by intros ->].
Qed.

(** *** Listing the portfolios of a user *)

Lemma matchesFind_user_offers (u : ObjectId) (ids : list ObjectId)
    (ps : list Portfolio) :
  List.filter (matchesFind (mkPortfolioFilter (Some u) (Some ids) None)) ps
  = filter (λ p, user p = u ∧ offer p ∈ ids) ps.
Proof.
  apply filter_bool. intros p. unfold matchesFind. cbn.
  rewrite andb_true_r, andb_true_iff, !bool_decide_eq_true. done.
Qed.

(** C10.  With no offer identifier the request is refused as a bad request
    and the state, trace included, is the one before: no store was called.
    With at least one, the user identifier and then the offer identifiers
    are turned into [ObjectId]s.  When each of them is one, the portfolio
    store is queried once and the portfolios of that user for those offers
    come back, in stored order; when one is not, the [BSONError] of the
    conversion is thrown, which is no bad request, and no store is
    called. *)
Theorem listForUserAndOffers_empty_rejected_else_queried
    (userId : string) (s : State) :
  listForUserAndOffers userId [] s
  = (Throw (BadRequestException "At least one offer should be provided."), s)
  ∧ ∀ (offerId : string) (others : list string),
      let offerIds := offerId :: others in
      listForUserAndOffers userId offerIds s
      = match newObjectId userId, newObjectIds offerIds with
        | Ok u, Ok ids =>
            (Ok (filter (λ p, user p = u ∧ offer p ∈ ids) (portfolios s)),
             setTrace s (trace s ++ [Fetch PortfolioStore]))
        | _, _ => (Throw BSONError, s)
        end.
Proof.
  split; [reflexivity|].
  intros offerId others offerIds.
  unfold listForUserAndOffers, portfolioRepository_find, findFilter.
  rewrite bool_decide_eq_false_2 by done.
  cbn [findUserId findOfferIds findIsAwarded]. run.
  destruct (newObjectId userId) as [u|e] eqn:Hu.
  - destruct (newObjectIds offerIds) as [ids|e] eqn:Hids.
    + cbn. by rewrite matchesFind_user_offers.
    + apply newObjectIds_Throw in Hids as ->. reflexivity.
  - apply newObjectId_Throw in Hu as [-> _]. reflexivity.
Qed.

(** *** Listing the offers of the last days *)

(** C7.  For a non-negative number of days the offers returned are exactly
    those of the store whose day lies between [currentDay - days] and
    [currentDay], both included: the offer of today is among them and none
    is of a later day.  Nothing is written. *)
Theorem listOffersForDays_closed_interval (days : Z) (s : State) :
  0 ≤ days →
  ∃ found,
    eval (listOffersForDays days) s = Ok found
    ∧ (∀ o, o ∈ found
            ↔ o ∈ offers s ∧ currentDay - days ≤ day o ≤ currentDay)
    ∧ (∀ o, o ∈ offers s → day o = currentDay → o ∈ found)
    ∧ (∀ o, o ∈ found → day o ≤ currentDay)
    ∧ offers (exec (listOffersForDays days) s) = offers s.
Proof.
  intros Hdays.
  unfold listOffersForDays, portfolioOfferRepository_find. run.
  eexists. split; [reflexivity|].
  assert (E : ∀ o,
            o ∈ List.filter
                  (λ o : Offer, bool_decide (currentDay - days ≤ day o)
                                && bool_decide (day o < currentDay + 1))
                  (offers s)
            ↔ o ∈ offers s ∧ currentDay - days ≤ day o ≤ currentDay).
  { intros o.
    rewrite list_elem_of_In, filter_In, andb_true_iff, !bool_decide_eq_true,
      <- list_elem_of_In.
    split; intros [H1 H2]; (split; [done|lia]). }
  split; [exact E|]. split; [|split; [|reflexivity]].
  - intros o Ho Hd. apply E. split; [done|lia].
  - intros o Ho. apply E in Ho. lia.
Qed.

(** *** Generating offers *)

Lemma latestOf_from (os : list Offer) (b0 : Offer) :
  ∃ b, fold_left
         (λ best o,
            match best with
            | Some b => if bool_decide (day b < day o) then Some o else Some b
            | None => Some o
            end)
         os (Some b0) = Some b
       ∧ (b = b0 ∨ b ∈ os)
       ∧ day b0 ≤ day b
       ∧ ∀ o, o ∈ os → day o ≤ day b.
Proof.
  revert b0. induction os as [|o os IH]; intros b0.
  - exists b0. split; [done|]. split; [by left|]. split; [lia|].
    intros o Ho. by apply elem_of_nil in Ho.
  - cbn [fold_left]. case_bool_decide as Hlt.
    + destruct (IH o) as (b & E & Hb & Hle & Hall).
      exists b. split; [done|]. split.
      { right. destruct Hb as [->|Hb]; [left|by right]. }
      split; [lia|].
      intros o' Ho'. apply elem_of_cons in Ho' as [->|Ho']; [done|by apply Hall].
    + destruct (IH b0) as (b & E & Hb & Hle & Hall).
      exists b. split; [done|]. split.
      { destruct Hb as [->|Hb]; [by left|right; by right]. }
      split; [done|].
      intros o' Ho'. apply elem_of_cons in Ho' as [->|Ho']; [lia|by apply Hall].
Qed.

(** [findLatest] answers nothing on an empty store and otherwise an offer of
    the greatest day. *)
Lemma latestOf_spec (os : list Offer) :
  match latestOf os with
  | None => os = []
  | Some b => b ∈ os ∧ ∀ o, o ∈ os → day o ≤ day b
  end.
Proof.
  destruct os as [|o os]; [done|].
  unfold latestOf. cbn [fold_left].
  destruct (latestOf_from os o) as (b & -> & Hb & Hle & Hall).
  split.
  - destruct Hb as [->|Hb]; [left|by right].
  - intros o' Ho'. apply elem_of_cons in Ho' as [->|Ho']; [done|by apply Hall].
Qed.

(** C5.  When the greatest day [D] among the stored offers and the current
    day [C] satisfy [(D + 1) - C > 3], a run of [generateOffers] only reads
    the latest offer: the three collections are the ones before and no
    write reaches a store. *)
Theorem generateOffers_day_gap_guard (s : State) (last : Offer) :
  last ∈ offers s →
  (∀ o, o ∈ offers s → day o ≤ day last) →
  (day last + 1) - currentDay > 3 →
  generateOffers s = (Ok (), setTrace s (trace s ++ [Fetch OfferStore]))
  ∧ offers (exec generateOffers s) = offers s
  ∧ List.filter isWrite (added s (exec generateOffers s)) = [].
Proof.
  intros Hin Hmax Hgap.
  assert (E : generateOffers s
              = (Ok (), setTrace s (trace s ++ [Fetch OfferStore]))).
  { unfold generateOffers, portfolioOfferRepository_findLatest. run.
    cbn [offers].
    pose proof (latestOf_spec (offers s)) as Hl.
    destruct (latestOf (offers s)) as [b|].
    - destruct Hl as [Hb Hall].
      assert (day b = day last) as Hd.
      { apply Z.le_antisymm; [by apply Hmax|by apply Hall]. }
      rewrite bool_decide_eq_true_2; [reflexivity|].
      unfold MAX_DAYS_THRESHOLD. lia.
    - rewrite Hl in Hin. by apply elem_of_nil in Hin. }
  split; [done|]. unfold exec. rewrite E. cbn [snd].
  split; [reflexivity|].
  rewrite (added_app s _ [Fetch OfferStore]); reflexivity.
Qed.

(** *** Updating a document by its identifier *)

Section UpdateByKey.

Context {A B K : Type} `{EqDecision K}.
Context (key : A → K) (kb : B → K) (g : B → A → A).
Hypothesis key_g : ∀ b y, key (g b y) = key y.

Lemma updateFirst_map (k : K) (f : A → A) (l : list A) :
  NoDup (List.map key l) →
  updateFirst (λ y, bool_decide (key y = k)) f l
  = List.map (λ y, if bool_decide (key y = k) then f y else y) l.
Proof.
  induction l as [|x l IH]; [done|].
  intros Hnd. cbn [List.map] in Hnd. apply NoDup_cons in Hnd as [Hx Hnd].
  cbn [updateFirst List.map]. case_bool_decide as Hk.
  - f_equal. symmetry. rewrite <- (map_id l) at 2.
    apply map_ext_in. intros y Hy.
    rewrite bool_decide_eq_false_2; [done|].
    intros Hky. apply Hx. rewrite Hk, <- Hky.
    apply list_elem_of_In, in_map, Hy.
  - f_equal. by apply IH.
Qed.

Lemma map_key_updateFirst (k : K) (b : B) (l : list A) :
  List.map key (updateFirst (λ y, bool_decide (key y = k)) (g b) l)
  = List.map key l.
Proof.
  induction l as [|x l IH]; [done|].
  cbn [updateFirst]. case_bool_decide; cbn [List.map].
  - by rewrite key_g.
  - by rewrite IH.
Qed.

(** Updating, one after the other, the documents named by a batch without
    repeated names changes each named document once, by the update of the
    batch entry that names it. *)
Lemma fold_updateFirst (batch : list B) (l : list A) :
  NoDup (List.map key l) →
  NoDup (List.map kb batch) →
  fold_left
    (λ acc b, updateFirst (λ y, bool_decide (key y = kb b)) (g b) acc)
    batch l
  = List.map
      (λ y, match List.find (λ b, bool_decide (kb b = key y)) batch with
            | Some b => g b y
            | None => y
            end)
      l.
Proof.
  revert l. induction batch as [|b batch IH]; intros l Hl Hb.
  - cbn. by rewrite map_id.
  - cbn [fold_left]. cbn [List.map] in Hb.
    apply NoDup_cons in Hb as [Hb1 Hb2].
    rewrite IH; [|by rewrite map_key_updateFirst|done].
    rewrite updateFirst_map by done. rewrite List.map_map.
    apply map_ext. intros y. cbn [List.find].
    destruct (decide (key y = kb b)) as [E|E].
    + rewrite (bool_decide_eq_true_2 (key y = kb b)) by done.
      rewrite (bool_decide_eq_true_2 (kb b = key y)) by done.
      rewrite key_g.
      destruct (List.find _ batch) as [b'|] eqn:F; [|done].
      apply find_some in F as [F1 F2]. apply bool_decide_eq_true_1 in F2.
      exfalso. apply Hb1. rewrite <- E, <- F2.
      apply list_elem_of_In, in_map, F1.
    + rewrite (bool_decide_eq_false_2 (key y = kb b)) by done.
      rewrite (bool_decide_eq_false_2 (kb b = key y)) by done.
      done.
Qed.

End UpdateByKey.

Lemma find_by_key {A K} `{EqDecision K} (key : A → K) (l : list A) (x : A) :
  NoDup (List.map key l) → x ∈ l →
  List.find (λ y, bool_decide (key y = key x)) l = Some x.
Proof.
  induction l as [|y l IH]; intros Hnd Hx.
  - by apply elem_of_nil in Hx.
  - cbn [List.map] in Hnd. apply NoDup_cons in Hnd as [Hy Hnd].
    cbn [List.find]. apply elem_of_cons in Hx as [->|Hx].
    + by rewrite bool_decide_eq_true_2.
    + rewrite bool_decide_eq_false_2; [by apply IH|].
      intros E. apply Hy. rewrite E. apply list_elem_of_In, in_map.
      by apply list_elem_of_In.
Qed.

(** *** Pricing sync *)

Lemma tokenHandler_priced (d : Z) (t : string) (l : Locals) (p : Pricing num) :
  getCoinPriceForDay t d = Some p →
  tokenHandler d t l
  = (mkLocals (<[t := calculatePercentageChange (startDayPrice p)
                                                (endDayPrice p)]>
                 (pricingChangesAcc l))
              (shouldSkipOffer l),
     Ok ()).
Proof. intros E. unfold tokenHandler. by rewrite E. Qed.

Lemma tokenHandler_absent (d : Z) (t : string) (l : Locals) :
  getCoinPriceForDay t d = None →
  tokenHandler d t l = (mkLocals (pricingChangesAcc l) true, Throw absentError).
Proof. intros E. unfold tokenHandler. by rewrite E. Qed.

(** The handler throws nothing else, and a handler that returns leaves the
    flag as it found it. *)
Lemma tokenHandler_cases (d : Z) (t : string) (l : Locals) :
  (∃ l', tokenHandler d t l = (l', Throw absentError))
  ∨ (∃ l', tokenHandler d t l = (l', Ok ())
           ∧ shouldSkipOffer l' = shouldSkipOffer l).
Proof.
  destruct (getCoinPriceForDay t d) as [p|] eqn:E.
  - right. eexists. split; [by apply tokenHandler_priced|done].
  - left. eexists. by apply tokenHandler_absent.
Qed.

Lemma promiseAll_cases (d : Z) (ts : list string) (l : Locals) :
  (∃ l', promiseAll (List.map (tokenHandler d) ts) l = (l', Throw absentError))
  ∨ (∃ l', promiseAll (List.map (tokenHandler d) ts) l = (l', Ok ())
           ∧ shouldSkipOffer l' = shouldSkipOffer l).
Proof.
  revert l. induction ts as [|t ts IH]; intros l.
  - right. by exists l.
  - cbn [List.map promiseAll].
    destruct (tokenHandler_cases d t l) as [[l1 E]|[l1 [E F]]]; rewrite E.
    + destruct (promiseAll _ l1) as [l2 r2]. left. by exists l2.
    + destruct (IH l1) as [[l2 E2]|[l2 [E2 F2]]]; rewrite E2.
      * left. by exists l2.
      * right. exists l2. split; [done|congruence].
Qed.

Lemma tokenLoop_cases (d : Z) (tos : list TokenOffer) (l : Locals) :
  (∃ l', tokenLoop d tos l = (l', Throw absentError))
  ∨ (∃ l', tokenLoop d tos l = (l', Ok ())
           ∧ shouldSkipOffer l' = shouldSkipOffer l).
Proof.
  revert l. induction tos as [|to tos IH]; intros l.
  - right. by exists l.
  - cbn [tokenLoop].
    destruct (promiseAll_cases d [firstToken to; secondToken to] l)
      as [[l1 E]|[l1 [E F]]]; rewrite E.
    + left. by exists l1.
    + destruct (shouldSkipOffer l1) eqn:Hf.
      * right. exists l1. by rewrite Hf.
      * destruct (IH l1) as [[l2 E2]|[l2 [E2 F2]]].
        -- left. by exists l2.
        -- right. exists l2. split; [done|congruence].
Qed.

Lemma tokenLoop_priced (d : Z) (tos : list TokenOffer) (l : Locals) :
  shouldSkipOffer l = false →
  (∀ t, t ∈ flat_map (λ to, [firstToken to; secondToken to]) tos →
        is_Some (getCoinPriceForDay t d)) →
  tokenLoop d tos l
  = (mkLocals
       (priceAll d (flat_map (λ to, [firstToken to; secondToken to]) tos)
                 (pricingChangesAcc l))
       false,
     Ok ()).
Proof.
  revert l. induction tos as [|to tos IH]; intros l Hf Hall.
  - cbn. destruct l as [m f]. cbn in *. by rewrite Hf.
  - cbn [tokenLoop flat_map List.map promiseAll].
    destruct (Hall (firstToken to)) as [p1 E1]; [cbn; by left|].
    destruct (Hall (secondToken to)) as [p2 E2]; [cbn; right; by left|].
    rewrite (tokenHandler_priced _ _ _ _ E1).
    rewrite (tokenHandler_priced _ _ _ _ E2).
    cbn [shouldSkipOffer]. rewrite Hf.
    rewrite IH; [|done|intros t Ht; apply Hall; cbn; by do 2 right].
    cbn [pricingChangesAcc]. unfold priceAll.
    cbn [app fold_left]. by rewrite E1, E2.
Qed.

Lemma tokenLoop_absent (d : Z) (tos : list TokenOffer) (l : Locals)
    (t : string) :
  shouldSkipOffer l = false →
  t ∈ flat_map (λ to, [firstToken to; secondToken to]) tos →
  getCoinPriceForDay t d = None →
  ∃ l', tokenLoop d tos l = (l', Throw absentError).
Proof.
  revert l. induction tos as [|to tos IH]; intros l Hf Ht Habs.
  - by apply elem_of_nil in Ht.
  - cbn [tokenLoop List.map promiseAll].
    destruct (getCoinPriceForDay (firstToken to) d) as [p1|] eqn:E1.
    + rewrite (tokenHandler_priced _ _ _ _ E1).
      destruct (getCoinPriceForDay (secondToken to) d) as [p2|] eqn:E2.
      * rewrite (tokenHandler_priced _ _ _ _ E2).
        cbn [shouldSkipOffer]. rewrite Hf.
        apply IH; [done| |done].
        cbn [flat_map] in Ht. apply elem_of_app in Ht as [Ht|Ht]; [|done].
        apply elem_of_cons in Ht as [->|Ht]; [congruence|].
        apply elem_of_cons in Ht as [->|Ht]; [congruence|].
        by apply elem_of_nil in Ht.
      * rewrite (tokenHandler_absent _ _ _ E2). by eexists.
    + rewrite (tokenHandler_absent _ _ _ E1).
      destruct (tokenHandler _ _ _) as [l2 r2]. by eexists.
Qed.

Lemma allPriced_true (o : Offer) :
  allPriced o = true
  ↔ ∀ t, t ∈ offerTokens o → is_Some (getCoinPriceForDay t (day o)).
Proof.
  unfold allPriced. rewrite forallb_forall. split.
  - intros H t Ht. apply list_elem_of_In, H in Ht.
    by apply bool_decide_eq_true_1 in Ht.
  - intros H t Ht. apply bool_decide_eq_true_2, H. by apply list_elem_of_In.
Qed.

Lemma allPriced_false (o : Offer) :
  allPriced o = false
  ↔ ∃ t, t ∈ offerTokens o ∧ getCoinPriceForDay t (day o) = None.
Proof.
  split.
  - intros H. unfold allPriced in H.
    induction (offerTokens o) as [|t ts IH]; [done|].
    cbn [forallb] in H. apply andb_false_iff in H as [H|H].
    + exists t. split; [left|].
      apply bool_decide_eq_false_1 in H.
      destruct (getCoinPriceForDay t (day o)); [|done].
      exfalso. apply H. by eexists.
    + destruct (IH H) as (t' & Ht' & E). exists t'. split; [by right|done].
  - intros (t & Ht & E). destruct (allPriced o) eqn:H; [|done].
    destruct (proj1 (allPriced_true o) H t Ht) as [p Hp]. congruence.
Qed.

Lemma syncOfferBody_run (o : Offer) (s : State) :
  syncOfferBody o s
  = if allPriced o then
      (Ok Normal,
       setTrace
         (setOffers s
            (updateFirst (λ x, bool_decide (oid x = oid o))
                         (applyOfferUpdate WaitingForCompletion
                            (Some (priceAll (day o) (offerTokens o) ∅)))
                         (offers s)))
         (trace s ++ [Persist OfferStore]))
    else (Throw absentError, s).
Proof.
  unfold syncOfferBody. destruct (allPriced o) eqn:H.
  - rewrite (tokenLoop_priced _ _ (mkLocals ∅ false) eq_refl
               (proj1 (allPriced_true o) H)).
    cbn [shouldSkipOffer pricingChangesAcc].
    unfold portfolioOfferRepository_updateOneById. run.
    by rewrite newObjectId_toHexString.
  - apply allPriced_false in H as (t & Ht & E).
    destruct (tokenLoop_absent _ _ (mkLocals ∅ false) t eq_refl Ht E)
      as [l' ->]. reflexivity.
Qed.

Lemma syncOffer_run (o : Offer) (s : State) :
  syncOffer o s = (Ok (), syncedState o s).
Proof.
  unfold syncOffer, syncedState. run. rewrite syncOfferBody_run.
  destruct (allPriced o); cbn.
  - by rewrite <- app_assoc.
  - by rewrite <- app_assoc.
Qed.

Lemma forOf_syncOffer (batch : list Offer) (s : State) :
  forOf batch syncOffer s
  = (Ok (), fold_left (λ st o, syncedState o st) batch s).
Proof.
  revert s. induction batch as [|o batch IH]; intros s; [done|].
  cbn [forOf fold_left]. run. rewrite syncOffer_run. apply IH.
Qed.

Lemma key_inj_NoDup {A K} `{EqDecision K} (key : A → K) (l : list A)
    (x y : A) :
  NoDup (List.map key l) → x ∈ l → y ∈ l → key x = key y → x = y.
Proof.
  intros Hnd Hx Hy E.
  pose proof (find_by_key key l x Hnd Hx) as Fx.
  pose proof (find_by_key key l y Hnd Hy) as Fy.
  rewrite E in Fx. congruence.
Qed.

Lemma NoDup_map_filter {A K} (key : A → K) (f : A → bool) (l : list A) :
  NoDup (List.map key l) → NoDup (List.map key (List.filter f l)).
Proof.
  induction l as [|x l IH]; [done|].
  cbn [List.map List.filter]. intros Hnd.
  apply NoDup_cons in Hnd as [Hx Hnd].
  destruct (f x); [|by apply IH].
  cbn [List.map]. apply NoDup_cons. split; [|by apply IH].
  intros Hin. apply Hx.
  apply list_elem_of_In, in_map_iff in Hin as (y & E & Hy).
  apply filter_In in Hy as [Hy _].
  rewrite <- E. apply list_elem_of_In, in_map, Hy.
Qed.

Lemma fold_left_filter {A S} (f : A → bool) (step : S → A → S)
    (l : list A) (a : S) :
  fold_left (λ acc x, if f x then step acc x else acc) l a
  = fold_left step (List.filter f l) a.
Proof.
  revert a. induction l as [|x l IH]; intros a; [done|].
  cbn [fold_left List.filter]. destruct (f x); cbn [fold_left]; apply IH.
Qed.

Lemma offers_fold_synced (batch : list Offer) (s : State) :
  offers (fold_left (λ st o, syncedState o st) batch s)
  = fold_left
      (λ os b,
         updateFirst (λ x, bool_decide (oid x = oid b))
                     (applyOfferUpdate WaitingForCompletion
                        (Some (priceAll (day b) (offerTokens b) ∅)))
                     os)
      (List.filter allPriced batch) (offers s).
Proof.
  rewrite <- fold_left_filter.
  revert s. induction batch as [|o batch IH]; intros s; [done|].
  cbn [fold_left]. rewrite IH. f_equal.
  unfold syncedState. by destruct (allPriced o).
Qed.

(** The offers after a pricing sync: every due offer whose tokens the
    gateway all prices is priced, every other document is as before. *)
Lemma syncOffersPrices_offers (s : State) :
  NoDup (List.map oid (offers s)) →
  eval syncOffersPrices s = Ok ()
  ∧ offers (exec syncOffersPrices s)
    = List.map
        (λ o, if bool_decide (dueForPricing o) && allPriced o
              then pricedOffer o else o)
        (offers s).
Proof.
  intros Hnd. unfold syncOffersPrices,
    portfolioOfferRepository_findByOfferStatus. run.
  set (due := λ o : Offer,
         bool_decide (offerStatus o = WaitingForPricing)
         && bool_decide (day o ≤ currentDay)).
  assert (Hdue : ∀ o, due o = bool_decide (dueForPricing o)).
  { intros o. unfold due, dueForPricing.
    apply eq_true_iff_eq.
    rewrite andb_true_iff, !bool_decide_eq_true. done. }
  set (batch := List.filter due (offers s)).
  assert (Hmap :
    fold_left
      (λ os b,
         updateFirst (λ x, bool_decide (oid x = oid b))
                     (applyOfferUpdate WaitingForCompletion
                        (Some (priceAll (day b) (offerTokens b) ∅)))
                     os)
      (List.filter allPriced batch) (offers s)
    = List.map
        (λ o, if bool_decide (dueForPricing o) && allPriced o
              then pricedOffer o else o)
        (offers s)).
  { rewrite (fold_updateFirst oid oid
               (λ b, applyOfferUpdate WaitingForCompletion
                       (Some (priceAll (day b) (offerTokens b) ∅))));
      [|done|done|by do 2 apply NoDup_map_filter].
    apply map_ext_in. intros y Hy. apply list_elem_of_In in Hy.
    rewrite <- Hdue.
    destruct (due y && allPriced y) eqn:Hsel.
    - apply andb_true_iff in Hsel as [Hd Hp].
      assert (Hin : y ∈ List.filter allPriced batch).
      { apply list_elem_of_In, filter_In. split; [|done].
        apply filter_In. split; [by apply list_elem_of_In|done]. }
      rewrite (find_by_key oid _ y); [done| |done].
      by do 2 apply NoDup_map_filter.
    - destruct (List.find _ _) as [b|] eqn:F; [|done].
      apply find_some in F as [F1 F2].
      apply bool_decide_eq_true_1 in F2.
      apply filter_In in F1 as [F1 Hp]. apply filter_In in F1 as [F1 Hd].
      assert (b = y) as ->.
      { apply (key_inj_NoDup oid (offers s)); [done| |done|done].
        by apply list_elem_of_In. }
      rewrite Hd, Hp in Hsel. done. }
  case_bool_decide as Hlen.
  - split; [done|]. cbn [snd offers]. rewrite <- Hmap.
    fold batch in Hlen. apply nil_length_inv in Hlen.
    fold due. fold batch. by rewrite Hlen.
  - fold due. fold batch. rewrite forOf_syncOffer. split; [done|].
    cbn [snd]. rewrite offers_fold_synced. apply Hmap.
Qed.

Lemma offerById_map (f : Offer → Offer) (os : list Offer) (o : Offer) :
  NoDup (List.map oid os) → o ∈ os → (∀ x, oid (f x) = oid x) →
  offerById (oid o) (List.map f os) = Some (f o).
Proof.
  intros Hnd Ho Hf. unfold offerById. rewrite newObjectId_toHexString.
  rewrite <- (Hf o).
  apply (find_by_key oid (List.map f os) (f o)).
  - rewrite List.map_map.
    rewrite (map_ext (λ x, oid (f x)) oid) by done. done.
  - apply list_elem_of_In, in_map. by apply list_elem_of_In.
Qed.

Lemma offerById_Some (id : string) (os : list Offer) (o : Offer) :
  offerById id os = Some o → o ∈ os ∧ newObjectId id = Ok (oid o).
Proof.
  unfold offerById. destruct (newObjectId id) as [i|e]; [|done].
  intros F. apply find_some in F as [F1 F2].
  apply bool_decide_eq_true_1 in F2.
  split; [by apply list_elem_of_In|by rewrite F2].
Qed.

(** C4.  Offer identifiers being unique, take an offer the sync fetches (it
    waits for its prices and its day has come) for one of whose tokens the
    gateway answers nothing.  The run ends normally; the document of the
    offer is the one before, so the status is still [WaitingForPricing] and
    no pricing change was stored for it; and every other fetched offer
    whose tokens are all priced is priced in the same run. *)
Theorem syncOffersPrices_absent_token_leaves_offer
    (s : State) (o : Offer) (t : string) :
  NoDup (List.map oid (offers s)) →
  o ∈ offers s →
  dueForPricing o →
  t ∈ offerTokens o →
  getCoinPriceForDay t (day o) = None →
  let s' := exec syncOffersPrices s in
  eval syncOffersPrices s = Ok ()
  ∧ offerById (oid o) (offers s') = Some o
  ∧ offerStatus o = WaitingForPricing
  ∧ ∀ o', o' ∈ offers s → dueForPricing o' → allPriced o' = true →
          offerById (oid o') (offers s') = Some (pricedOffer o').
Proof.
  intros Hnd Ho Hdue Ht Habs s'.
  destruct (syncOffersPrices_offers s Hnd) as [Hev Hoff].
  split; [done|]. subst s'. rewrite Hoff.
  assert (Hid : ∀ x : Offer,
            oid (if bool_decide (dueForPricing x) && allPriced x
                 then pricedOffer x else x) = oid x).
  { intros x. by destruct (_ && _). }
  split; [|split; [apply Hdue|]].
  - rewrite offerById_map by done.
    assert (allPriced o = false) as ->.
    { apply allPriced_false. by exists t. }
    by rewrite andb_false_r.
  - intros o' Ho' Hdue' Hp.
    rewrite offerById_map by done.
    by rewrite Hp, bool_decide_eq_true_2.
Qed.

(** C8.  When the gateway answers nothing for a token of an offer, the
    callback sets the flag and then throws on reading the price of the
    absent answer, whatever the locals; the body of the round ends by that
    exception with the state untouched, the round logs it at the catch of
    the offer and goes on to its closing log line; and no round ever ends by
    the [continue] that the flag guards. *)
Theorem tokenHandler_absent_reaches_catch
    (o : Offer) (t : string) (s : State) :
  t ∈ offerTokens o →
  getCoinPriceForDay t (day o) = None →
  (∀ l, tokenHandler (day o) t l
        = (mkLocals (pricingChangesAcc l) true, Throw absentError))
  ∧ syncOfferBody o s = (Throw absentError, s)
  ∧ syncOffer o s
    = (Ok (),
       setTrace s
         (trace s ++ [LogError "Failed to update offer prices" absentError;
                      LogLine ("Offer " +:+ oid o +:+ " prices updated")]))
  ∧ ∀ (o' : Offer) (s' : State), eval (syncOfferBody o') s' ≠ Ok Continue.
Proof.
  intros Ht Habs.
  assert (Hp : allPriced o = false) by (apply allPriced_false; by exists t).
  split; [intros l; by apply tokenHandler_absent|].
  split; [by rewrite syncOfferBody_run, Hp|].
  split; [rewrite syncOffer_run; unfold syncedState; by rewrite Hp|].
  intros o' s'. unfold eval. rewrite syncOfferBody_run.
  by destruct (allPriced o').
Qed.

(** *** Awarding *)

Lemma reducePoints_run (changes : gmap string num) (selected : list string)
    (points : num) :
  reducePoints changes points selected
  = if forallb (λ t, bool_decide (is_Some (changes !! t))) selected
    then Ok (fold_left add (omap (λ t, changes !! t) selected) points)
    else Throw notFound.
Proof.
  revert points. induction selected as [|t ts IH]; intros points; [done|].
  cbn [reducePoints forallb omap].
  destruct (changes !! t) as [c|] eqn:E.
  - rewrite bool_decide_eq_true_2 by (by eexists).
    cbn. rewrite E. cbn. apply IH.
  - rewrite bool_decide_eq_false_2; [done|]. by intros [? ?].
Qed.

Lemma applyPortfolioUpdate_awarded (points : num) :
  applyPortfolioUpdate (mkUpdatePortfolio (Some true) (Some points))
  = awardedPortfolio points.
Proof. reflexivity. Qed.

Lemma awardPortfolio_run (changes : gmap string num) (p : Portfolio)
    (s : State) :
  awardPortfolio changes p s
  = if scorable changes p
    then (Ok (), awardedState (p, sumOfChanges changes (selectedTokens p)) s)
    else (Throw notFound, s).
Proof.
  unfold awardPortfolio. run. rewrite reducePoints_run.
  fold (scorable changes p). destruct (scorable changes p); [|done].
  unfold transactionsManager_useTransaction,
    portfolioRepository_updateOneById, portfolioModel_findOneAndUpdate,
    userService_update. run.
  rewrite !newObjectId_toHexString. run.
  unfold awardedState. cbn. by rewrite <- app_assoc.
Qed.

Lemma forOf_awardPortfolio (changes : gmap string num)
    (group : list Portfolio) (s : State) :
  forOf group (awardPortfolio changes) s
  = (if forallb (scorable changes) group then Ok () else Throw notFound,
     fold_left (λ st a, awardedState a st) (awardsFor changes group) s).
Proof.
  revert s. induction group as [|p group IH]; intros s; [done|].
  cbn [forOf]. run. rewrite awardPortfolio_run.
  unfold awardsFor. cbn [forallb takeWhile].
  destruct (scorable changes p); [|done].
  cbn [List.map fold_left andb]. apply IH.
Qed.

Lemma awardOffer_run (grouped : gmap string (list Portfolio)) (o : Offer)
    (s : State) :
  awardOffer grouped o s
  = (Ok (), offerAwardedState (default [] (grouped !! getId o)) o s).
Proof.
  unfold awardOffer, offerAwardedState. run.
  rewrite forOf_awardPortfolio.
  destruct (forallb _ _); [|done].
  unfold markOfferCompleted, portfolioOfferRepository_updateOneById. run.
  rewrite newObjectId_toHexString. cbn. by rewrite <- app_assoc.
Qed.

Lemma forOf_awardOffer (grouped : gmap string (list Portfolio))
    (batch : list Offer) (s : State) :
  forOf batch (awardOffer grouped) s
  = (Ok (),
     fold_left
       (λ st o, offerAwardedState (default [] (grouped !! getId o)) o st)
       batch s).
Proof.
  revert s. induction batch as [|o batch IH]; intros s; [done|].
  cbn [forOf fold_left]. run. rewrite awardOffer_run. apply IH.
Qed.

Lemma groupBy_fold {A} (key : A → string) (l : list A)
    (acc : gmap string (list A)) (k : string) :
  fold_left (λ acc x, <[key x := (default [] (acc !! key x) ++ [x])%list]> acc)
            l acc !! k
  = match List.filter (λ x, bool_decide (key x = k)) l with
    | [] => acc !! k
    | f => Some (default [] (acc !! k) ++ f)%list
    end.
Proof.
  revert acc. induction l as [|x l IH]; intros acc; [done|].
  cbn [fold_left List.filter]. rewrite IH.
  case_bool_decide as E.
  - subst k. rewrite lookup_insert_eq. cbn [default].
    destruct (List.filter _ l); [done|]. unfold id. by rewrite <- app_assoc.
  - by rewrite lookup_insert_ne.
Qed.

Lemma groupBy_lookup {A} (key : A → string) (l : list A) (k : string) :
  groupBy l key !! k
  = match List.filter (λ x, bool_decide (key x = k)) l with
    | [] => None
    | f => Some f
    end.
Proof. unfold groupBy. rewrite groupBy_fold. by rewrite lookup_empty. Qed.

Lemma groupBy_default {A} (key : A → string) (l : list A) (k : string) :
  default [] (groupBy l key !! k)
  = List.filter (λ x, bool_decide (key x = k)) l.
Proof. rewrite groupBy_lookup. by destruct (List.filter _ l). Qed.

Lemma fold_left_ext_in {A S} (f g : S → A → S) (l : list A) (a : S) :
  (∀ x, x ∈ l → ∀ acc, f acc x = g acc x) →
  fold_left f l a = fold_left g l a.
Proof.
  revert a. induction l as [|x l IH]; intros a H; [done|].
  cbn [fold_left]. rewrite H by left. apply IH.
  intros y Hy. apply H. by right.
Qed.

Lemma filter_filter_andb {A} (f g : A → bool) (l : list A) :
  List.filter f (List.filter g l) = List.filter (λ x, g x && f x) l.
Proof.
  induction l as [|x l IH]; [done|].
  cbn [List.filter]. destruct (g x); cbn [List.filter andb]; [|done].
  destruct (f x); by rewrite IH.
Qed.

(** The group lodash builds for a waiting offer is made of its portfolios
    that are not awarded. *)
Lemma group_pendingOf (os : list Offer) (ps : list Portfolio) (o : Offer) :
  o ∈ os →
  default []
    (groupBy
       (List.filter
          (matchesFind
             (mkPortfolioFilter None (Some (List.map oid os)) (Some false)))
          ps)
       getOfferId !! getId o)
  = pendingOf o ps.
Proof.
  intros Ho. rewrite groupBy_default, filter_filter_andb.
  unfold pendingOf. apply filter_ext. intros p.
  unfold matchesFind, getOfferId, getId. cbn.
  rewrite bool_decide_toHexString.
  destruct (bool_decide (offer p = oid o)) eqn:E;
    [|by rewrite !andb_false_r].
  apply bool_decide_eq_true_1 in E.
  rewrite (bool_decide_eq_true_2 (offer p ∈ List.map oid os)); [done|].
  rewrite E. apply list_elem_of_In, in_map. by apply list_elem_of_In.
Qed.

Lemma awardPortfolios_run (s : State) :
  awardPortfolios s = (Ok (), awardedRun s).
Proof.
  unfold awardPortfolios, listOffersWaitingForCompletion,
    portfolioOfferRepository_findByOfferStatus, portfolioRepository_find,
    findFilter.
  run. cbn [findUserId findOfferIds findIsAwarded].
  rewrite newObjectIds_getId. run.
  rewrite forOf_awardOffer. f_equal. unfold awardedRun.
  assert (E : List.filter
                (λ o : Offer,
                   bool_decide (offerStatus o = WaitingForCompletion) && true)
                (offers s) = awaiting (offers s)).
  { apply filter_ext. intros o. apply andb_true_r. }
  rewrite E. rewrite <- app_assoc. cbn [app]. unfold setTrace.
  apply fold_left_ext_in. intros o Ho st.
  by rewrite group_pendingOf.
Qed.

Section RunProjections.

Variable group : Offer → list Portfolio.

Lemma awards_fold (aw : list (Portfolio * num)) (s : State) :
  let st := fold_left (λ st a, awardedState a st) aw s in
  offers st = offers s
  ∧ portfolios st = fold_left updPortfolios aw (portfolios s)
  ∧ users st = fold_left updUsers aw (users s)
  ∧ ∀ e, e ∈ trace s → e ∈ trace st.
Proof.
  revert s. induction aw as [|a aw IH]; intros s; [done|].
  cbn [fold_left]. cbn zeta.
  destruct (IH (awardedState a s)) as (H1 & H2 & H3 & H4).
  rewrite H1, H2, H3. repeat split; try done.
  intros e He. apply H4. cbn. apply elem_of_app. by left.
Qed.

Lemma offerAwardedState_proj (o : Offer) (s : State) :
  let st := offerAwardedState (group o) o s in
  offers st
  = (if forallb (scorable (pricingChanges o)) (group o)
     then updOffers (offers s) o else offers s)
  ∧ portfolios st
    = fold_left updPortfolios (awardsFor (pricingChanges o) (group o))
                (portfolios s)
  ∧ users st
    = fold_left updUsers (awardsFor (pricingChanges o) (group o)) (users s)
  ∧ ∀ e, e ∈ trace s → e ∈ trace st.
Proof.
  cbn zeta. unfold offerAwardedState.
  destruct (awards_fold (awardsFor (pricingChanges o) (group o)) s)
    as (G1 & G2 & G3 & G4). cbn zeta in *.
  destruct (forallb _ (group o));
    cbn [offers portfolios users trace setTrace];
    rewrite ?G1, ?G2, ?G3; repeat split; try done;
    intros e He; apply elem_of_app; left; by apply G4.
Qed.

Lemma offers_fold (batch : list Offer) (s : State) :
  let st := fold_left (λ st o, offerAwardedState (group o) o st) batch s in
  offers st
  = fold_left updOffers
      (List.filter
         (λ o, forallb (scorable (pricingChanges o)) (group o)) batch)
      (offers s)
  ∧ portfolios st
    = fold_left updPortfolios
        (flat_map (λ o, awardsFor (pricingChanges o) (group o)) batch)
        (portfolios s)
  ∧ users st
    = fold_left updUsers
        (flat_map (λ o, awardsFor (pricingChanges o) (group o)) batch)
        (users s)
  ∧ ∀ e, e ∈ trace s → e ∈ trace st.
Proof.
  revert s. induction batch as [|o batch IH]; intros s; [done|].
  cbn [fold_left flat_map List.filter]. cbn zeta.
  destruct (IH (offerAwardedState (group o) o s)) as (H1 & H2 & H3 & H4).
  destruct (offerAwardedState_proj o s) as (G1 & G2 & G3 & G4).
  cbn zeta in *.
  rewrite H1, H2, H3, G1, G2, G3, !fold_left_app.
  repeat split; try done.
  - by destruct (forallb _ (group o)).
  - intros e He. by apply H4, G4.
Qed.

(** The failure of a group is in the trace at the end of the run. *)
Lemma failure_logged (batch : list Offer) (s : State) (o : Offer) :
  o ∈ batch →
  forallb (scorable (pricingChanges o)) (group o) = false →
  LogError ("Failed to award portfolios for offer: " +:+ oid o) notFound
  ∈ trace (fold_left (λ st o, offerAwardedState (group o) o st) batch s).
Proof.
  revert s. induction batch as [|o' batch IH]; intros s Ho Hf.
  - by apply elem_of_nil in Ho.
  - cbn [fold_left]. apply elem_of_cons in Ho as [<-|Ho]; [|by apply IH].
    apply offers_fold. unfold offerAwardedState. rewrite Hf.
    cbn. apply elem_of_app. right. by left.
Qed.

End RunProjections.

Lemma takeWhile_prefix {A} (f : A → bool) (l : list A) :
  ∃ rest, l = (takeWhile f l ++ rest)%list.
Proof.
  induction l as [|x l [rest IH]]; [by exists []|].
  cbn [takeWhile]. destruct (f x).
  - exists rest. cbn. by rewrite <- IH.
  - by exists (x :: l).
Qed.

Lemma takeWhile_app_all {A} (f : A → bool) (l1 l2 : list A) :
  (∀ x, x ∈ l1 → f x = true) →
  takeWhile f (l1 ++ l2) = (l1 ++ takeWhile f l2)%list.
Proof.
  induction l1 as [|x l1 IH]; intros H; [done|].
  cbn [app takeWhile]. rewrite H by left. f_equal.
  apply IH. intros y Hy. apply H. by right.
Qed.

Lemma takeWhile_elem {A} (f : A → bool) (l : list A) (x : A) :
  x ∈ takeWhile f l → x ∈ l ∧ f x = true.
Proof.
  induction l as [|y l IH]; cbn [takeWhile]; intros H.
  - by apply elem_of_nil in H.
  - destruct (f y) eqn:E; [|by apply elem_of_nil in H].
    apply elem_of_cons in H as [->|H].
    + split; [left|done].
    + destruct (IH H). split; [by right|done].
Qed.

Lemma awardsFor_elem (changes : gmap string num) (grp : list Portfolio)
    (a : Portfolio * num) :
  a ∈ awardsFor changes grp →
  a.1 ∈ grp ∧ scorable changes a.1 = true
  ∧ a.2 = sumOfChanges changes (selectedTokens a.1).
Proof.
  unfold awardsFor. intros H.
  apply list_elem_of_In, in_map_iff in H as (p & <- & Hp).
  apply list_elem_of_In, takeWhile_elem in Hp as [Hp Hs]. done.
Qed.

Lemma pendingOf_elem (o : Offer) (ps : list Portfolio) (p : Portfolio) :
  p ∈ pendingOf o ps ↔ p ∈ ps ∧ isAwarded p = false ∧ offer p = oid o.
Proof.
  unfold pendingOf. rewrite list_elem_of_In, filter_In, andb_true_iff,
    !bool_decide_eq_true, <- list_elem_of_In. done.
Qed.

Lemma awardsOfBatch_elem (batch : list Offer) (ps : list Portfolio)
    (a : Portfolio * num) :
  a ∈ flat_map (λ o, awardsFor (pricingChanges o) (pendingOf o ps)) batch →
  ∃ o, o ∈ batch ∧ a.1 ∈ ps ∧ isAwarded a.1 = false ∧ offer a.1 = oid o
       ∧ scorable (pricingChanges o) a.1 = true
       ∧ a.2 = sumOfChanges (pricingChanges o) (selectedTokens a.1).
Proof.
  intros H. apply list_elem_of_In, in_flat_map in H as (o & Ho & Ha).
  apply list_elem_of_In, awardsFor_elem in Ha as (H1 & H2 & H3).
  apply pendingOf_elem in H1 as (? & ? & ?).
  exists o. repeat split; try done. by apply list_elem_of_In.
Qed.

Lemma awardsFor_NoDup (changes : gmap string num) (o : Offer)
    (ps : list Portfolio) :
  NoDup (List.map pid ps) →
  NoDup (List.map (λ a : Portfolio * num, pid a.1)
                  (awardsFor changes (pendingOf o ps))).
Proof.
  intros Hnd. unfold awardsFor. rewrite List.map_map. cbn [fst].
  destruct (takeWhile_prefix (scorable changes) (pendingOf o ps))
    as [rest E].
  assert (Hp : NoDup (List.map pid (pendingOf o ps)))
    by (by apply NoDup_map_filter).
  rewrite E, List.map_app in Hp. by apply NoDup_app in Hp as [? _].
Qed.

(** No portfolio is awarded twice in a run. *)
Lemma awardsOfBatch_NoDup (batch : list Offer) (ps : list Portfolio) :
  NoDup (List.map oid batch) →
  NoDup (List.map pid ps) →
  NoDup (List.map (λ a : Portfolio * num, pid a.1)
           (flat_map (λ o, awardsFor (pricingChanges o) (pendingOf o ps))
                     batch)).
Proof.
  intros Hb Hps. induction batch as [|o batch IH]; [constructor|].
  cbn [List.map] in Hb. apply NoDup_cons in Hb as [Ho Hb].
  cbn [flat_map]. rewrite List.map_app. apply NoDup_app.
  split; [by apply awardsFor_NoDup|]. split; [|by apply IH].
  intros k Hk1 Hk2.
  apply list_elem_of_In, in_map_iff in Hk1 as (a & <- & Ha).
  apply list_elem_of_In, in_map_iff in Hk2 as (b & E & Hb').
  apply list_elem_of_In, awardsFor_elem in Ha as (Ha & _ & _).
  apply pendingOf_elem in Ha as (Ha1 & _ & Ha3).
  apply list_elem_of_In, awardsOfBatch_elem in Hb'
    as (o' & Ho' & Hb1 & _ & Hb3 & _).
  assert (b.1 = a.1) as Eab
    by (by apply (key_inj_NoDup pid ps)).
  apply Ho. rewrite <- Ha3, <- Eab, Hb3.
  apply list_elem_of_In, in_map. by apply list_elem_of_In.
Qed.

Lemma awaiting_elem (os : list Offer) (o : Offer) :
  o ∈ awaiting os ↔ o ∈ os ∧ offerStatus o = WaitingForCompletion.
Proof.
  unfold awaiting.
  rewrite list_elem_of_In, filter_In, bool_decide_eq_true,
    <- list_elem_of_In. done.
Qed.

Lemma awardsOfRun_NoDup (s : State) :
  NoDup (List.map oid (offers s)) →
  NoDup (List.map pid (portfolios s)) →
  NoDup (List.map (λ a : Portfolio * num, pid a.1) (awardsOfRun s)).
Proof.
  intros Ho Hp. apply awardsOfBatch_NoDup; [|done].
  by apply NoDup_map_filter.
Qed.

(** The collections after a run of [awardPortfolios], identifiers being
    unique. *)
Lemma awardPortfolios_offers (s : State) :
  NoDup (List.map oid (offers s)) →
  eval awardPortfolios s = Ok ()
  ∧ offers (exec awardPortfolios s)
    = List.map
        (λ o, if bool_decide (offerStatus o = WaitingForCompletion)
                 && allScorable o (portfolios s)
              then completedOffer o else o)
        (offers s).
Proof.
  intros Ho. unfold exec, eval. rewrite awardPortfolios_run.
  cbn [fst snd]. split; [done|]. unfold awardedRun.
  destruct (offers_fold (λ o, pendingOf o (portfolios s))
              (awaiting (offers s))
              (setTrace s (trace s ++ [Fetch OfferStore;
                                       Fetch PortfolioStore])))
    as (H1 & _). cbn zeta in *. rewrite H1. cbn [setTrace offers].
  unfold updOffers.
  rewrite (fold_updateFirst oid oid (λ _, applyOfferUpdate Completed None));
    [|done|done|by do 2 apply NoDup_map_filter].
  apply map_ext_in. intros y Hy. apply list_elem_of_In in Hy.
  fold (allScorable y (portfolios s)).
  destruct (bool_decide (offerStatus y = WaitingForCompletion)
            && allScorable y (portfolios s)) eqn:Hsel.
  - apply andb_true_iff in Hsel as [Hd Hs].
    rewrite (find_by_key oid _ y); [done| |].
    + by do 2 apply NoDup_map_filter.
    + apply list_elem_of_In, filter_In. split; [|done].
      apply filter_In. split; [by apply list_elem_of_In|done].
  - destruct (List.find _ _) as [b|] eqn:F; [|done].
    apply find_some in F as [F1 F2].
    apply bool_decide_eq_true_1 in F2.
    apply filter_In in F1 as [F1 Hs]. apply filter_In in F1 as [F1 Hd].
    assert (b = y) as ->.
    { apply (key_inj_NoDup oid (offers s)); [done| |done|done].
      by apply list_elem_of_In. }
    fold (allScorable y (portfolios s)) in Hs.
    rewrite Hd, Hs in Hsel. done.
Qed.

Lemma awardPortfolios_portfolios (s : State) :
  NoDup (List.map oid (offers s)) →
  NoDup (List.map pid (portfolios s)) →
  portfolios (exec awardPortfolios s)
  = List.map (awardedBy (awardsOfRun s)) (portfolios s).
Proof.
  intros Ho Hp. unfold exec. rewrite awardPortfolios_run.
  cbn [snd]. unfold awardedRun.
  destruct (offers_fold (λ o, pendingOf o (portfolios s))
              (awaiting (offers s))
              (setTrace s (trace s ++ [Fetch OfferStore;
                                       Fetch PortfolioStore])))
    as (_ & H2 & _). cbn zeta in *. rewrite H2. cbn [setTrace portfolios].
  unfold updPortfolios.
  rewrite (fold_updateFirst pid (λ a : Portfolio * num, pid a.1)
             (λ a, awardedPortfolio a.2));
    [done|done|done|by apply awardsOfRun_NoDup].
Qed.

Lemma awardPortfolios_users (s : State) :
  users (exec awardPortfolios s)
  = fold_left updUsers (awardsOfRun s) (users s).
Proof.
  unfold exec. rewrite awardPortfolios_run. cbn [snd]. unfold awardedRun.
  destruct (offers_fold (λ o, pendingOf o (portfolios s))
              (awaiting (offers s))
              (setTrace s (trace s ++ [Fetch OfferStore;
                                       Fetch PortfolioStore])))
    as (_ & _ & H3 & _). cbn zeta in *. by rewrite H3.
Qed.

(** The balance of a user after a list of awards is the balance before with
    the amounts of the awards of that user added, one after the other. *)
Lemma balance_after_awards (aw : list (Portfolio * num))
    (us : gmap ObjectId User) (u : ObjectId) :
  balance <$> (fold_left updUsers aw us !! u)
  = (λ usr, credited (amountsFor u aw) (balance usr)) <$> (us !! u).
Proof.
  revert us. induction aw as [|a aw IH]; intros us.
  - cbn. by destruct (us !! u).
  - cbn [fold_left]. rewrite IH. unfold updUsers at 1.
    rewrite lookup_alter. unfold amountsFor. cbn [List.filter].
    case_decide as E.
    + rewrite bool_decide_eq_true_2 by done. subst u.
      destruct (us !! user a.1); [|done]. reflexivity.
    + rewrite bool_decide_eq_false_2 by done. done.
Qed.

Lemma awardedBy_pid (aw : list (Portfolio * num)) (p : Portfolio) :
  pid (awardedBy aw p) = pid p.
Proof. unfold awardedBy. by destruct (List.find _ aw). Qed.

Lemma NoDup_after_award (s : State) :
  NoDup (List.map oid (offers s)) →
  NoDup (List.map pid (portfolios s)) →
  NoDup (List.map oid (offers (exec awardPortfolios s)))
  ∧ NoDup (List.map pid (portfolios (exec awardPortfolios s))).
Proof.
  intros Ho Hp.
  destruct (awardPortfolios_offers s Ho) as [_ ->].
  rewrite awardPortfolios_portfolios by done.
  rewrite !List.map_map. split.
  - erewrite map_ext; [exact Ho|]. intros o. by destruct (_ && _).
  - erewrite map_ext; [exact Hp|]. intros p. apply awardedBy_pid.
Qed.

Lemma portfolioById_map (f : Portfolio → Portfolio) (ps : list Portfolio)
    (p : Portfolio) :
  NoDup (List.map pid ps) → p ∈ ps → (∀ x, pid (f x) = pid x) →
  portfolioById (pid p) (List.map f ps) = Some (f p).
Proof.
  intros Hnd Hp Hf. unfold portfolioById. rewrite newObjectId_toHexString.
  rewrite <- (Hf p).
  apply (find_by_key pid (List.map f ps) (f p)).
  - rewrite List.map_map.
    rewrite (map_ext (λ x, pid (f x)) pid) by done. done.
  - apply list_elem_of_In, in_map. by apply list_elem_of_In.
Qed.

Lemma portfolioById_Some (id : string) (ps : list Portfolio)
    (p : Portfolio) :
  portfolioById id ps = Some p → p ∈ ps ∧ newObjectId id = Ok (pid p).
Proof.
  unfold portfolioById. destruct (newObjectId id) as [i|e]; [|done].
  intros F. apply find_some in F as [F1 F2].
  apply bool_decide_eq_true_1 in F2.
  split; [by apply list_elem_of_In|by rewrite F2].
Qed.

Lemma filter_by_key {A K} `{EqDecision K} (key : A → K) (l : list A) (x : A) :
  NoDup (List.map key l) → x ∈ l →
  List.filter (λ y, bool_decide (key y = key x)) l = [x].
Proof.
  induction l as [|y l IH]; intros Hnd Hx.
  - by apply elem_of_nil in Hx.
  - cbn [List.map] in Hnd. apply NoDup_cons in Hnd as [Hy Hnd].
    cbn [List.filter]. apply elem_of_cons in Hx as [->|Hx].
    + rewrite bool_decide_eq_true_2 by done. f_equal.
      clear IH Hnd. induction l as [|z l IH]; [done|].
      cbn [List.filter]. rewrite bool_decide_eq_false_2.
      * apply IH. intros H. apply Hy. cbn. by right.
      * intros E. apply Hy. cbn. rewrite E. by left.
    + rewrite bool_decide_eq_false_2; [by apply IH|].
      intros E. apply Hy. rewrite E.
      apply list_elem_of_In, in_map. by apply list_elem_of_In.
Qed.

Lemma pendingOf_app (o : Offer) (l1 l2 : list Portfolio) :
  pendingOf o (l1 ++ l2) = (pendingOf o l1 ++ pendingOf o l2)%list.
Proof. unfold pendingOf. apply List.filter_app. Qed.

(** A portfolio that can be scored, as every pending portfolio of its offer
    stored before it, is among the awards of the run. *)
Lemma awarded_in_run (s : State) (o : Offer)
    (before after : list Portfolio) (p : Portfolio) :
  o ∈ offers s →
  offerStatus o = WaitingForCompletion →
  portfolios s = (before ++ p :: after)%list →
  isAwarded p = false →
  offer p = oid o →
  scorable (pricingChanges o) p = true →
  (∀ q, q ∈ before → isAwarded q = false → offer q = oid o →
        scorable (pricingChanges o) q = true) →
  (p, sumOfChanges (pricingChanges o) (selectedTokens p)) ∈ awardsOfRun s.
Proof.
  intros Ho Hst Hps Hna Hof Hsc Hbefore.
  unfold awardsOfRun. apply list_elem_of_In, in_flat_map.
  exists o. split; [by apply list_elem_of_In, awaiting_elem|].
  unfold awardsFor.
  apply (in_map (λ p, (p, sumOfChanges (pricingChanges o)
                                       (selectedTokens p)))).
  rewrite Hps, pendingOf_app, takeWhile_app_all.
  - apply in_or_app. right. unfold pendingOf. cbn [List.filter].
    rewrite !bool_decide_eq_true_2 by done. cbn [andb takeWhile].
    rewrite Hsc. by left.
  - intros q Hq. apply pendingOf_elem in Hq as (? & ? & ?).
    by apply Hbefore.
Qed.

(** The portfolio update and the credit of an award sit in one
    transaction, and a transaction that fails leaves the three collections
    as they were. *)
Lemma useTransaction_rollback {A} (fn : M A) (s : State) (e : Exn) :
  eval fn s = Throw e →
  let s' := exec (transactionsManager_useTransaction fn) s in
  eval (transactionsManager_useTransaction fn) s = Throw e
  ∧ offers s' = offers s ∧ portfolios s' = portfolios s
  ∧ users s' = users s.
Proof.
  unfold eval, exec, transactionsManager_useTransaction.
  destruct (fn s) as [[a|e'] s']; cbn; [done|].
  intros [= ->]. done.
Qed.

(** C2.  Identifiers being unique, take a portfolio that is not awarded, of
    an offer waiting for completion, whose selected tokens all have a
    pricing change, as have those of every pending portfolio of that offer
    stored before it.  A run of [awardPortfolios] stores it as awarded with
    the sum of the pricing changes of its tokens; it is awarded exactly
    once in the run; the balance of every user after the run is the balance
    before with the amounts awarded to that user added; the update of the
    portfolio and the credit are one transaction; and a second run leaves
    the portfolio as it is and awards nothing for it, being filtered on
    portfolios that are not awarded. *)
Theorem awardPortfolios_awards_once (s : State) (o : Offer)
    (before after : list Portfolio) (p : Portfolio) :
  NoDup (List.map oid (offers s)) →
  NoDup (List.map pid (portfolios s)) →
  o ∈ offers s →
  offerStatus o = WaitingForCompletion →
  portfolios s = (before ++ p :: after)%list →
  isAwarded p = false →
  offer p = oid o →
  scorable (pricingChanges o) p = true →
  (∀ q, q ∈ before → isAwarded q = false → offer q = oid o →
        scorable (pricingChanges o) q = true) →
  let points := sumOfChanges (pricingChanges o) (selectedTokens p) in
  let s1 := exec awardPortfolios s in
  let s2 := exec awardPortfolios s1 in
  portfolioById (pid p) (portfolios s1) = Some (awardedPortfolio points p)
  ∧ List.filter (λ a, bool_decide (pid a.1 = pid p)) (awardsOfRun s)
    = [(p, points)]
  ∧ (∀ u, balance <$> (users s1 !! u)
          = (λ usr, credited (amountsFor u (awardsOfRun s)) (balance usr))
            <$> (users s !! u))
  ∧ (∀ st, awardPortfolio (pricingChanges o) p st
           = transactionsManager_useTransaction
               (portfolioRepository_updateOneById (pid p)
                  (mkUpdatePortfolio (Some true) (Some points)) ;;
                userService_update (user p) points) st)
  ∧ portfolioById (pid p) (portfolios s2) = Some (awardedPortfolio points p)
  ∧ (∀ a, a ∈ awardsOfRun s1 → pid a.1 ≠ pid p)
  ∧ (∀ u, balance <$> (users s2 !! u)
          = (λ usr, credited (amountsFor u (awardsOfRun s1)) (balance usr))
            <$> (users s1 !! u)).
Proof.
  intros Ho Hp Hin Hst Hps Hna Hof Hsc Hbefore points s1 s2.
  pose proof (awarded_in_run s o before after p Hin Hst Hps Hna Hof Hsc
                Hbefore) as Haw. fold points in Haw.
  pose proof (awardsOfRun_NoDup s Ho Hp) as Hnd.
  assert (Hpin : p ∈ portfolios s).
  { rewrite Hps. apply elem_of_app. right. left. }
  assert (H1 : portfolioById (pid p) (portfolios s1)
               = Some (awardedPortfolio points p)).
  { subst s1. rewrite awardPortfolios_portfolios by done.
    rewrite portfolioById_map; [|done|done|apply awardedBy_pid].
    unfold awardedBy.
    by rewrite (find_by_key (λ a : Portfolio * num, pid a.1) _ (p, points)). }
  destruct (NoDup_after_award s Ho Hp) as [Ho1 Hp1]. fold s1 in Ho1, Hp1.
  assert (Hin1 : awardedPortfolio points p ∈ portfolios s1).
  { by apply portfolioById_Some in H1 as [H1 _]. }
  assert (H6 : ∀ a, a ∈ awardsOfRun s1 → pid a.1 ≠ pid p).
  { intros a Ha E. apply awardsOfBatch_elem in Ha as (_ & _ & Ha1 & Ha2 & _).
    assert (a.1 = awardedPortfolio points p) as Ea
      by (by apply (key_inj_NoDup pid (portfolios s1))).
    rewrite Ea in Ha2. done. }
  split; [done|]. split.
  { by apply (filter_by_key (λ a : Portfolio * num, pid a.1) _ (p, points)). }
  split.
  { intros u. subst s1. rewrite awardPortfolios_users.
    apply balance_after_awards. }
  split.
  { intros st. unfold awardPortfolio. run. rewrite reducePoints_run.
    fold (scorable (pricingChanges o) p). by rewrite Hsc. }
  split.
  { subst s2. rewrite awardPortfolios_portfolios by done.
    change (pid p) with (pid (awardedPortfolio points p)).
    rewrite portfolioById_map; [|done|done|apply awardedBy_pid].
    f_equal. unfold awardedBy.
    destruct (List.find _ _) as [a|] eqn:F; [|done].
    apply find_some in F as [F1 F2]. apply bool_decide_eq_true_1 in F2.
    exfalso. apply (H6 a); [by apply list_elem_of_In|done]. }
  split; [done|].
  intros u. subst s2. rewrite awardPortfolios_users.
  apply balance_after_awards.
Qed.

(** C3.  Offer identifiers being unique, take an offer waiting for
    completion.  When every pending portfolio of the offer can be scored,
    the offer is [Completed] after the run and
    [listOffersWaitingForCompletion] no longer returns it.  When one cannot,
    the failure is logged for the offer and its document is the one before:
    the offer still waits for completion. *)
Theorem awardPortfolios_completes_scored_offer (s : State) (o : Offer) :
  NoDup (List.map oid (offers s)) →
  o ∈ offers s →
  offerStatus o = WaitingForCompletion →
  let s1 := exec awardPortfolios s in
  (allScorable o (portfolios s) = true →
   offerById (oid o) (offers s1) = Some (completedOffer o)
   ∧ ∃ waiting, eval listOffersWaitingForCompletion s1 = Ok waiting
                ∧ ∀ w, w ∈ waiting → oid w ≠ oid o)
  ∧ (allScorable o (portfolios s) = false →
     offerById (oid o) (offers s1) = Some o
     ∧ LogError ("Failed to award portfolios for offer: " +:+ oid o) notFound
       ∈ trace s1).
Proof.
  intros Ho Hin Hst s1.
  destruct (awardPortfolios_offers s Ho) as [_ Hoff]. fold s1 in Hoff.
  assert (Hid : ∀ x : Offer,
            oid (if bool_decide (offerStatus x = WaitingForCompletion)
                    && allScorable x (portfolios s)
                 then completedOffer x else x) = oid x).
  { intros x. by destruct (_ && _). }
  split; intros Hsc.
  - assert (H1 : offerById (oid o) (offers s1) = Some (completedOffer o)).
    { rewrite Hoff, offerById_map by done.
      by rewrite Hsc, bool_decide_eq_true_2. }
    split; [done|].
    unfold listOffersWaitingForCompletion,
      portfolioOfferRepository_findByOfferStatus. run.
    eexists. split; [reflexivity|].
    intros w Hw E. apply list_elem_of_In, filter_In in Hw as [Hw Hws].
    rewrite andb_true_r in Hws. apply bool_decide_eq_true_1 in Hws.
    assert (Hnd1 : NoDup (List.map oid (offers s1))).
    { rewrite Hoff, List.map_map. by erewrite map_ext. }
    apply offerById_Some in H1 as [H1 _].
    assert (w = completedOffer o) as ->.
    { apply (key_inj_NoDup oid (offers s1)); [done| |done|done].
      by apply list_elem_of_In. }
    done.
  - split.
    + rewrite Hoff, offerById_map by done.
      by rewrite Hsc, andb_false_r.
    + subst s1. unfold exec. rewrite awardPortfolios_run. cbn [snd].
      apply (failure_logged (λ o, pendingOf o (portfolios s)));
        [by apply awaiting_elem|done].
Qed.

(** C9.  Offer identifiers being unique, an offer waiting for completion
    that has no pending portfolio is [Completed] after the run.  Its group
    is missing from the grouping, so the empty list stands for it; its
    round then writes the offer only, the portfolios and the users being
    the ones before; and no award of the run belongs to it. *)
Theorem awardPortfolios_completes_offer_without_portfolios
    (s : State) (o : Offer) :
  NoDup (List.map oid (offers s)) →
  o ∈ offers s →
  offerStatus o = WaitingForCompletion →
  pendingOf o (portfolios s) = [] →
  let s1 := exec awardPortfolios s in
  offerById (oid o) (offers s1) = Some (completedOffer o)
  ∧ groupBy
      (List.filter
         (matchesFind
            (mkPortfolioFilter None
               (Some (List.map oid (awaiting (offers s)))) (Some false)))
         (portfolios s))
      getOfferId !! getId o = None
  ∧ (∀ grouped st,
       grouped !! getId o = None →
       awardOffer grouped o st
       = (Ok (),
          mkState (updOffers (offers st) o) (portfolios st) (users st)
                  (nextId st) (draws st)
                  (trace st
                   ++ [Persist OfferStore;
                       LogLine ("Offer " +:+ oid o
                                +:+ " completed, updated 0 portfolios.")])))
  ∧ ∀ a, a ∈ awardsOfRun s → offer a.1 ≠ oid o.
Proof.
  intros Ho Hin Hst Hnone s1.
  destruct (awardPortfolios_offers s Ho) as [_ Hoff]. fold s1 in Hoff.
  split.
  { rewrite Hoff, offerById_map; [|done|done|].
    - unfold allScorable. rewrite Hnone. cbn [forallb].
      by rewrite bool_decide_eq_true_2.
    - intros x. by destruct (_ && _). }
  split.
  { assert (Hw : o ∈ awaiting (offers s)) by (by apply awaiting_elem).
    pose proof (group_pendingOf (awaiting (offers s)) (portfolios s) o Hw)
      as G.
    rewrite groupBy_default, Hnone in G.
    by rewrite groupBy_lookup, G. }
  split.
  { intros grouped st Hg. rewrite awardOffer_run, Hg. reflexivity. }
  intros a Ha E. apply awardsOfBatch_elem in Ha as (_ & _ & H1 & H2 & _).
  assert (a.1 ∈ pendingOf o (portfolios s)) as Hp
    by (by apply pendingOf_elem).
  rewrite Hnone in Hp. by apply elem_of_nil in Hp.
Qed.

(** *** The generated batch *)

Lemma generateLoop_run (fuel : nat) (d upper : Z) (k : nat)
    (acc : list CreatePortfolioOfferEntityParams) :
  Z.of_nat fuel = upper + 1 - d →
  generateLoop fuel d upper k acc
  = ((acc ++ batchFrom fuel d k)%list, (k + fuel)%nat).
Proof.
  revert d k acc. induction fuel as [|fuel IH]; intros d k acc Hf.
  - cbn. by rewrite app_nil_r, Nat.add_0_r.
  - cbn [generateLoop batchFrom].
    rewrite bool_decide_eq_true_2 by lia.
    rewrite IH by lia. rewrite <- app_assoc. cbn [app].
    f_equal. lia.
Qed.

(** The loop stops because its condition fails: more fuel changes
    nothing. *)
Lemma generateLoop_fuel_enough (extra : nat) (d upper : Z) (k : nat)
    (acc : list CreatePortfolioOfferEntityParams) :
  d ≤ upper + 1 →
  generateLoop (Z.to_nat (upper + 1 - d) + extra) d upper k acc
  = generateLoop (Z.to_nat (upper + 1 - d)) d upper k acc.
Proof.
  intros Hd. remember (Z.to_nat (upper + 1 - d)) as fuel eqn:Hf.
  assert (Z.of_nat fuel = upper + 1 - d) as Hz by lia. clear Hf.
  revert d k acc Hd Hz. induction fuel as [|fuel IH]; intros d k acc Hd Hz.
  - destruct extra as [|extra]; [done|]. cbn [Nat.add generateLoop].
    rewrite bool_decide_eq_false_2 by lia. done.
  - cbn [Nat.add generateLoop]. rewrite bool_decide_eq_true_2 by lia.
    apply IH; lia.
Qed.

Lemma batchFrom_length (n : nat) (d : Z) (k : nat) :
  length (batchFrom n d k) = n.
Proof.
  revert d k. induction n as [|n IH]; intros d k; [done|].
  cbn. by rewrite IH.
Qed.

Lemma batchFrom_lookup (n : nat) (d : Z) (k i : nat)
    (x : CreatePortfolioOfferEntityParams) :
  batchFrom n d k !! i = Some x →
  x = mkCreateOffer (d + Z.of_nat i) (getDateFromUtcDay (d + Z.of_nat i))
        (pairTokens (sampleSize (k + i) tokens (MAX_TOKEN_OFFERS * 2))).
Proof.
  revert d k i. induction n as [|n IH]; intros d k i H; [done|].
  destruct i as [|i]; cbn in H.
  - injection H as <-. by rewrite Z.add_0_r, Nat.add_0_r.
  - apply IH in H. rewrite H.
    replace (d + 1 + Z.of_nat i) with (d + Z.of_nat (S i)) by lia.
    by replace (S k + i)%nat with (k + S i)%nat by lia.
Qed.

Lemma insertOffers_length (n : nat)
    (ps : list CreatePortfolioOfferEntityParams) :
  length (insertOffers n ps) = length ps.
Proof.
  revert n. induction ps as [|x ps IH]; intros n; [done|].
  cbn. by rewrite IH.
Qed.

Lemma insertOffers_lookup (n : nat)
    (ps : list CreatePortfolioOfferEntityParams) (i : nat) (o : Offer) :
  insertOffers n ps !! i = Some o →
  ∃ x, ps !! i = Some x
       ∧ o = mkOffer (objectId (n + i)) (newDay x) (newDate x)
               (newTokenOffers x) WaitingForPricing ∅.
Proof.
  revert n i. induction ps as [|x ps IH]; intros n i H; [done|].
  destruct i as [|i]; cbn in H.
  - injection H as <-. exists x. by rewrite Nat.add_0_r.
  - apply IH in H as (y & Hy & ->). exists y. split; [done|].
    by replace (S n + i)%nat with (n + S i)%nat by lia.
Qed.

(** Pairing twelve tokens by position uses each of them once, in order. *)
Lemma pairTokens_twelve (av : list string) :
  length av = 12%nat →
  length (pairTokens av) = 6%nat
  ∧ flat_map (λ t, [firstToken t; secondToken t]) (pairTokens av) = av.
Proof.
  intros H. do 13 (destruct av as [|? av]; [done|]); done.
Qed.

Lemma nextDayOf_spec (os : list Offer) :
  match os with
  | [] => nextDayOf os = currentDay
  | _ => ∃ b, b ∈ os ∧ (∀ o, o ∈ os → day o ≤ day b)
              ∧ nextDayOf os = day b + 1
  end.
Proof.
  unfold nextDayOf. pose proof (latestOf_spec os) as H.
  destruct os as [|o os]; [done|].
  destruct (latestOf (o :: os)) as [b|]; [|done].
  destruct H as [H1 H2]. by exists b.
Qed.

(** C6.  When the guard does not fire and every sample is made of twelve
    distinct tokens, [generateOffers] appends a batch of eight offers, not
    seven: their days are consecutive from one past the latest offer (from
    the current day on an empty store), each waits for its prices and has
    six pairs that are, in order, the twelve tokens of its sample, so that
    no token is in two pairs. *)
Theorem generateOffers_batch_of_eight (s : State) :
  nextDayOf (offers s) - currentDay ≤ MAX_DAYS_THRESHOLD →
  (∀ k, length (sampleSize k tokens 12) = 12%nat
        ∧ NoDup (sampleSize k tokens 12)) →
  match offers s with
  | [] => nextDayOf (offers s) = currentDay
  | _ => ∃ b, b ∈ offers s ∧ (∀ o, o ∈ offers s → day o ≤ day b)
              ∧ nextDayOf (offers s) = day b + 1
  end
  ∧ ∃ batch : list Offer,
      offers (exec generateOffers s) = (offers s ++ batch)%list
      ∧ length batch = 8%nat
      ∧ ∀ (i : nat) (o : Offer),
          batch !! i = Some o →
          day o = nextDayOf (offers s) + Z.of_nat i
          ∧ offerStatus o = WaitingForPricing
          ∧ length (tokenOffers o) = 6%nat
          ∧ offerTokens o = sampleSize (draws s + i) tokens 12
          ∧ NoDup (offerTokens o).
Proof.
  intros Hgap Hsample. split; [apply nextDayOf_spec|].
  unfold generateOffers, portfolioOfferRepository_findLatest. run.
  fold (nextDayOf (offers s)).
  rewrite bool_decide_eq_false_2 by lia.
  rewrite generateLoop_run by (unfold OFFERS_TO_GENERATE; lia).
  replace (Z.to_nat (nextDayOf (offers s) + OFFERS_TO_GENERATE + 1
                     - nextDayOf (offers s))) with 8%nat
    by (unfold OFFERS_TO_GENERATE; lia).
  unfold setDraws, portfolioOfferRepository_createMany.
  cbn [app fst snd offers nextId draws].
  eexists. split; [reflexivity|].
  split; [by rewrite insertOffers_length, batchFrom_length|].
  intros i o Hi.
  apply insertOffers_lookup in Hi as (x & Hx & ->).
  apply batchFrom_lookup in Hx. subst x.
  change (MAX_TOKEN_OFFERS * 2)%nat with 12%nat.
  destruct (Hsample (draws s + i)%nat) as [Hlen Hnd].
  destruct (pairTokens_twelve _ Hlen) as [H6 Hflat].
  unfold offerTokens.
  cbn [day offerStatus tokenOffers newDay newDate newTokenOffers].
  rewrite Hflat. done.
Qed.

(** *** Creating a portfolio *)

Lemma everyFrom_in_range (tos : list TokenOffer) (selected : list string)
    (index : nat) :
  (index + length selected ≤ length tos)%nat →
  ∃ b, everyFrom index
         (λ token index,
            match tos !! index with
            | Some t =>
                Ok (bool_decide (firstToken t = token)
                    || bool_decide (secondToken t = token))
            | None => Throw (TypeError "Cannot read properties of undefined")
            end)
         selected = Ok b.
Proof.
  revert index. induction selected as [|t ts IH]; intros index H.
  - by exists true.
  - cbn [everyFrom]. cbn [length] in H.
    destruct (tos !! index) as [x|] eqn:E.
    + destruct (_ || _); [|by exists false]. apply IH. lia.
    + apply lookup_ge_None in E. lia.
Qed.

(** The check of the selected tokens throws on a wrong number of tokens
    and on nothing else: with the right number it returns a boolean. *)
Lemma validateSelectedTokens_run (selected : list string) (o : Offer)
    (s : State) :
  if bool_decide (length selected = length (tokenOffers o)) then
    ∃ b, validateSelectedTokens selected o s = (Ok b, s)
  else
    validateSelectedTokens selected o s
    = (Throw (BadRequestException "Invalid number of selected tokens"), s).
Proof.
  unfold validateSelectedTokens. case_bool_decide as E.
  - rewrite bool_decide_eq_false_2 by (by intros ?).
    destruct (everyFrom_in_range (tokenOffers o) selected 0) as [b Hb];
      [lia|].
    exists b. unfold liftResult. by rewrite Hb.
  - by rewrite bool_decide_eq_true_2.
Qed.
Lemma userById_Some (id : string) (us : gmap ObjectId User) (usr : User) :
  userById id us = Some usr ↔ ∃ u, newObjectId id = Ok u ∧ us !! u = Some usr.
Proof.
  unfold userById. destruct (newObjectId id) as [u|e].
  - split; [intros H; by exists u|]. by intros (? & [= <-] & ?).
  - split; [done|]. by intros (? & ? & _).
Qed.

Lemma existsb_portfolio (u o : ObjectId) (ps : list Portfolio) :
  existsb (λ p : Portfolio, bool_decide (user p = u)
                            && bool_decide (offer p = o)) ps = false
  ↔ ∀ p, p ∈ ps → ¬ (user p = u ∧ offer p = o).
Proof.
  split.
  - intros E p Hp [H1 H2].
    assert (existsb (λ p : Portfolio, bool_decide (user p = u)
                                      && bool_decide (offer p = o)) ps
            = true) as Ht; [|congruence].
    apply existsb_exists. exists p. split; [by apply list_elem_of_In|].
    by rewrite !bool_decide_eq_true_2.
  - intros Hnew. apply not_true_is_false. intros H.
    apply existsb_exists in H as (p & Hp & Hq).
    apply andb_true_iff in Hq as [H1 H2].
    apply bool_decide_eq_true_1 in H1, H2.
    apply (Hnew p); [by apply list_elem_of_In|done].
Qed.

(** The outcome of [create], check after check.  The strings that reach
    the portfolio repository are those under which the offer and the user
    were found, so that their conversions succeed. *)
Lemma create_run (userId offerId : string) (selected : list string)
    (s : State) :
  create userId offerId selected s
  = match offerById offerId (offers s) with
    | None =>
        (Throw (BadRequestException "Provided offer is not found"),
         setTrace s (trace s ++ [Fetch OfferStore]))
    | Some o =>
        let s2 := setTrace s (trace s ++ [Fetch OfferStore;
                                          Fetch UserLedger]) in
        match newObjectId userId with
        | Throw _ =>
            (Throw (BadRequestException "Provided user is not found"), s2)
        | Ok u =>
            match users s !! u with
            | None =>
                (Throw (BadRequestException "Provided user is not found"),
                 s2)
            | Some _ =>
                if bool_decide (day o ≠ currentDay + 1) then
                  (Throw (BadRequestException
                            "Provided offer is not available."), s2)
                else if bool_decide (length selected
                                     ≠ length (tokenOffers o))
                then
                  (Throw (BadRequestException
                            "Invalid number of selected tokens"), s2)
                else
                  let s3 := setTrace s (trace s ++ [Fetch OfferStore;
                                                    Fetch UserLedger;
                                                    Fetch PortfolioStore]) in
                  if existsb (λ p : Portfolio,
                                bool_decide (user p = u)
                                && bool_decide (offer p = oid o))
                             (portfolios s)
                  then
                    (Throw (BadRequestException
                              "Portfolio for this day already submitted."),
                     s3)
                  else
                    let doc := mkPortfolio (objectId (nextId s)) u (oid o)
                                           selected false None in
                    (Ok doc,
                     mkState (offers s) (portfolios s ++ [doc]) (users s)
                             (S (nextId s)) (draws s)
                             (trace s3 ++ [Persist PortfolioStore]))
            end
        end
    end.
Proof.
  unfold create, getById, portfolioOfferRepository_findById,
    userService_getById, userById. run.
  destruct (offerById offerId (offers s)) as [o|] eqn:Ho; [|reflexivity].
  apply offerById_Some in Ho as [_ Hid]. run.
  rewrite <- app_assoc. cbn [app].
  destruct (newObjectId userId) as [u|e] eqn:Hu; [|reflexivity].
  destruct (users s !! u) as [usr|]; [|reflexivity].
  case_bool_decide as Hday; [reflexivity|]. run.
  case_bool_decide as Hlen.
  - pose proof (validateSelectedTokens_run selected o) as V.
    rewrite bool_decide_eq_false_2 in V by done. by rewrite V.
  - pose proof (validateSelectedTokens_run selected o) as V.
    rewrite bool_decide_eq_true_2 in V by lia.
    match goal with |- context [validateSelectedTokens selected o ?st] =>
      destruct (V st) as [b ->] end.
    unfold portfolioRepository_existsByUserIdAndOfferId. run.
    rewrite Hu, Hid. run.
    rewrite <- app_assoc. cbn [app].
    destruct (existsb _ (portfolios s)); [reflexivity|].
    unfold portfolioRepository_create, castToObjectId, portfolioModel_create.
    run. rewrite Hu, Hid. reflexivity.
Qed.

(** X4.  For an existing offer of the next day and an existing user, the
    request is refused as a bad request, and nothing stored, when the
    number of selected tokens is not the number of pairs of the offer. *)
Lemma create_rejects_wrong_length (s : State) (userId offerId : string)
    (selected : list string) (o : Offer) (usr : User) :
  offerById offerId (offers s) = Some o →
  userById userId (users s) = Some usr →
  day o = currentDay + 1 →
  length selected ≠ length (tokenOffers o) →
  eval (create userId offerId selected) s
  = Throw (BadRequestException "Invalid number of selected tokens")
  ∧ portfolios (exec (create userId offerId selected) s) = portfolios s.
Proof.
  intros Ho Hu Hday Hlen.
  apply userById_Some in Hu as (u & Hu & Husr).
  unfold eval, exec. rewrite create_run, Ho. cbn zeta. rewrite Hu, Husr.
  rewrite bool_decide_eq_false_2 by (by intros ?).
  by rewrite bool_decide_eq_true_2.
Qed.

(** C1.  [create] throws away the answer of the token check: for an
    existing offer of the next day, an existing user and no earlier
    portfolio of that user for the offer, any selection with as many tokens
    as the offer has pairs is stored, whatever the tokens are. *)
Theorem create_stores_any_tokens_of_right_length
    (s : State) (userId offerId : string) (selected : list string)
    (o : Offer) (u : ObjectId) (usr : User) :
  offerById offerId (offers s) = Some o →
  newObjectId userId = Ok u →
  users s !! u = Some usr →
  day o = currentDay + 1 →
  length selected = length (tokenOffers o) →
  (∀ p, p ∈ portfolios s → ¬ (user p = u ∧ offer p = oid o)) →
  let doc := mkPortfolio (objectId (nextId s)) u (oid o) selected false
                         None in
  eval (create userId offerId selected) s = Ok doc
  ∧ portfolios (exec (create userId offerId selected) s)
    = (portfolios s ++ [doc])%list.
Proof.
  intros Ho Hu Husr Hday Hlen Hnew doc.
  unfold eval, exec. rewrite create_run, Ho. cbn zeta. rewrite Hu, Husr.
  rewrite bool_decide_eq_false_2 by (by intros ?).
  rewrite bool_decide_eq_false_2 by (by intros ?).
  apply existsb_portfolio in Hnew. by rewrite Hnew.
Qed.

(** *** More on creating a portfolio *)

Lemma everyFrom_spec (tos : list TokenOffer) (selected : list string)
    (index : nat) :
  (index + length selected ≤ length tos)%nat →
  ∃ b, everyFrom index
         (λ token index,
            match tos !! index with
            | Some t =>
                Ok (bool_decide (firstToken t = token)
                    || bool_decide (secondToken t = token))
            | None => Throw (TypeError "Cannot read properties of undefined")
            end)
         selected = Ok b
       ∧ (b = true
          ↔ ∀ (i : nat) (t : string),
              selected !! i = Some t →
              ∃ pair, tos !! (index + i)%nat = Some pair
                      ∧ (firstToken pair = t ∨ secondToken pair = t)).
Proof.
  revert index. induction selected as [|t ts IH]; intros index H.
  - exists true. split; [done|]. split; [|done]. intros _ i t Hi. done.
  - cbn [everyFrom]. cbn [length] in H.
    destruct (tos !! index) as [x|] eqn:E;
      [|apply lookup_ge_None in E; lia].
    destruct (bool_decide (firstToken x = t)
              || bool_decide (secondToken x = t)) eqn:Hx.
    + destruct (IH (S index)) as (b & Hb & Hiff); [lia|].
      exists b. split; [done|]. rewrite Hiff. split.
      * intros Hall i t' Hi. destruct i as [|i].
        -- injection Hi as <-. rewrite Nat.add_0_r. exists x.
           split; [done|]. apply orb_true_iff in Hx as [Hx|Hx];
             apply bool_decide_eq_true_1 in Hx; [by left|by right].
        -- replace (index + S i)%nat with (S index + i)%nat by lia.
           by apply Hall.
      * intros Hall i t' Hi.
        replace (S index + i)%nat with (index + S i)%nat by lia.
        by apply Hall.
    + exists false. split; [done|]. split; [done|]. intros Hall.
      destruct (Hall 0%nat t eq_refl) as (pair & Hp & Hor).
      rewrite Nat.add_0_r, E in Hp. injection Hp as <-.
      apply orb_false_iff in Hx as [H1 H2].
      apply bool_decide_eq_false_1 in H1, H2. by destruct Hor.
Qed.

(** X1.  With as many selected tokens as the offer has pairs, the check of
    the selection reads no pair past the end, throws nothing and changes
    nothing; the boolean it returns is [true] exactly when every selected
    token is one of the two tokens of the pair at its position. *)
Theorem validateSelectedTokens_decides_selection
    (selected : list string) (o : Offer) (s : State) :
  length selected = length (tokenOffers o) →
  ∃ b, validateSelectedTokens selected o s = (Ok b, s)
       ∧ (b = true ↔ validSelection selected o).
Proof.
  intros Hlen. unfold validateSelectedTokens.
  rewrite bool_decide_eq_false_2 by (by intros ?).
  destruct (everyFrom_spec (tokenOffers o) selected 0) as (b & Hb & Hiff);
    [lia|].
  exists b. unfold liftResult. rewrite Hb. split; [done|].
  rewrite Hiff. unfold validSelection. done.
Qed.
(** What an accepted [create] went through and left behind. *)
Lemma create_ok_inv (userId offerId : string) (selected : list string)
    (s : State) (doc : Portfolio) :
  eval (create userId offerId selected) s = Ok doc →
  ∃ o u usr,
    offerById offerId (offers s) = Some o
    ∧ newObjectId userId = Ok u
    ∧ users s !! u = Some usr
    ∧ day o = currentDay + 1
    ∧ length selected = length (tokenOffers o)
    ∧ existsb (λ p : Portfolio, bool_decide (user p = u)
                                && bool_decide (offer p = oid o))
              (portfolios s) = false
    ∧ doc = mkPortfolio (objectId (nextId s)) u (oid o) selected false None
    ∧ offers (exec (create userId offerId selected) s) = offers s
    ∧ portfolios (exec (create userId offerId selected) s)
      = (portfolios s ++ [doc])%list
    ∧ users (exec (create userId offerId selected) s) = users s.
Proof.
  unfold eval, exec. rewrite create_run.
  destruct (offerById offerId (offers s)) as [o|]; [|done]. cbn zeta.
  destruct (newObjectId userId) as [u|e]; [|done].
  destruct (users s !! u) as [usr|] eqn:Husr; [|done].
  case_bool_decide as Hday; [done|].
  case_bool_decide as Hlen; [done|].
  destruct (existsb _ (portfolios s)) eqn:Hex; [done|].
  cbn [fst snd]. intros [= <-]. exists o, u, usr.
  repeat split; try done; lia.
Qed.

Lemma create_ok (userId offerId : string) (selected : list string)
    (s : State) (o : Offer) (u : ObjectId) (usr : User) :
  offerById offerId (offers s) = Some o →
  newObjectId userId = Ok u →
  users s !! u = Some usr →
  day o = currentDay + 1 →
  length selected = length (tokenOffers o) →
  (∀ p, p ∈ portfolios s → ¬ (user p = u ∧ offer p = oid o)) →
  ∃ doc, eval (create userId offerId selected) s = Ok doc.
Proof.
  intros Ho Hu Husr Hday Hlen Hnew. unfold eval. rewrite create_run, Ho.
  cbn zeta. rewrite Hu, Husr.
  rewrite bool_decide_eq_false_2 by (by intros ?).
  rewrite bool_decide_eq_false_2 by (by intros ?).
  apply existsb_portfolio in Hnew. rewrite Hnew. by eexists.
Qed.

Lemma create_frame (userId offerId : string) (selected : list string)
    (s : State) :
  offers (exec (create userId offerId selected) s) = offers s
  ∧ users (exec (create userId offerId selected) s) = users s.
Proof.
  unfold exec. rewrite create_run.
  destruct (offerById offerId (offers s)) as [o|]; [|done]. cbn zeta.
  destruct (newObjectId userId) as [u|e]; [|done].
  destruct (users s !! u) as [usr|]; [|done].
  case_bool_decide; [done|]. case_bool_decide; [done|].
  by destruct (existsb _ (portfolios s)).
Qed.

(** X2.  [create] stores a portfolio exactly when the offer exists, the
    user exists, the offer is the one of the next day, the selection has as
    many tokens as the offer has pairs, and the user has no portfolio for
    the offer yet.  The stored portfolio is then the last of the store, of
    the user and the offer that the two strings name, not awarded and
    without points, and neither the offers nor the users change. *)
Theorem create_accepts_iff (userId offerId : string)
    (selected : list string) (s : State) :
  let s' := exec (create userId offerId selected) s in
  ((∃ doc, eval (create userId offerId selected) s = Ok doc)
   ↔ ∃ o u, offerById offerId (offers s) = Some o
            ∧ newObjectId userId = Ok u
            ∧ is_Some (users s !! u)
            ∧ day o = currentDay + 1
            ∧ length selected = length (tokenOffers o)
            ∧ ∀ p, p ∈ portfolios s → ¬ (user p = u ∧ offer p = oid o))
  ∧ (∀ doc, eval (create userId offerId selected) s = Ok doc →
            portfolios s' = (portfolios s ++ [doc])%list
            ∧ newObjectId userId = Ok (user doc)
            ∧ newObjectId offerId = Ok (offer doc)
            ∧ selectedTokens doc = selected
            ∧ isAwarded doc = false ∧ earnedPoints doc = None)
  ∧ offers s' = offers s
  ∧ users s' = users s.
Proof.
  cbn zeta. split; [split|split; [|apply create_frame]].
  - intros [doc Hdoc].
    apply create_ok_inv in Hdoc
      as (o & u & usr & Ho & Hu & Husr & Hday & Hlen & Hex & _).
    exists o, u. split; [done|]. split; [done|]. split; [by eexists|].
    split; [done|]. split; [done|]. by apply existsb_portfolio.
  - intros (o & u & Ho & Hu & [usr Husr] & Hday & Hlen & Hnew).
    by apply (create_ok _ _ _ _ o u usr).
  - intros doc Hdoc.
    apply create_ok_inv in Hdoc
      as (o & u & usr & Ho & Hu & _ & _ & _ & _ & -> & _ & Hp & _).
    apply offerById_Some in Ho as [_ Ho].
    by rewrite Hp.
Qed.


(** X5.  After [create] has stored a portfolio, a second [create] of the
    same user for the same offer with a selection of the right length is
    refused as already submitted, and the portfolios stay the ones after
    the first. *)
Theorem create_twice_rejected (userId offerId : string)
    (selected again : list string) (s : State) (doc : Portfolio) :
  eval (create userId offerId selected) s = Ok doc →
  length again = length selected →
  let s1 := exec (create userId offerId selected) s in
  eval (create userId offerId again) s1
  = Throw (BadRequestException "Portfolio for this day already submitted.")
  ∧ portfolios (exec (create userId offerId again) s1) = portfolios s1.
Proof.
  intros Hok Hlen. cbn zeta.
  destruct (create_ok_inv userId offerId selected s doc Hok)
    as (o & u & usr & Ho & Hu & Husr & Hday & Hl & _ & Hdoc & Hoff & Hps
        & Hus).
  unfold eval, exec. rewrite (create_run userId offerId again).
  unfold exec in Hoff, Hus, Hps. rewrite Hoff, Hus, Ho, Hps. cbn zeta.
  rewrite Hu, Husr.
  rewrite bool_decide_eq_false_2 by (by intros ?).
  rewrite bool_decide_eq_false_2 by (intros ?; congruence).
  assert (existsb (λ p : Portfolio, bool_decide (user p = u)
                                    && bool_decide (offer p = oid o))
                  (portfolios s ++ [doc]) = true) as ->.
  { rewrite existsb_app. apply orb_true_iff. right. rewrite Hdoc. cbn.
    by rewrite !bool_decide_eq_true_2. }
  done.
Qed.

Lemma create_throw_portfolios (userId offerId : string)
    (selected : list string) (s : State) (e : Exn) :
  eval (create userId offerId selected) s = Throw e →
  portfolios (exec (create userId offerId selected) s) = portfolios s.
Proof.
  unfold eval, exec. rewrite create_run.
  destruct (offerById offerId (offers s)) as [o|]; [|done]. cbn zeta.
  destruct (newObjectId userId) as [u|e']; [|done].
  destruct (users s !! u) as [usr|]; [|done].
  case_bool_decide; [done|]. case_bool_decide; [done|].
  by destruct (existsb _ (portfolios s)).
Qed.

(** X6.  [create] keeps the store free of a second portfolio of one user
    for one offer: when no user has two portfolios for the same offer
    before the call, none has after it, whatever the request. *)
Theorem create_keeps_one_portfolio_per_user_and_offer
    (userId offerId : string) (selected : list string) (s : State) :
  onePortfolioPerUserAndOffer (portfolios s) →
  onePortfolioPerUserAndOffer
    (portfolios (exec (create userId offerId selected) s)).
Proof.
  unfold onePortfolioPerUserAndOffer. intros Hone.
  destruct (eval (create userId offerId selected) s) as [doc|e] eqn:Hev.
  - apply create_ok_inv in Hev
      as (o & u & usr & _ & _ & _ & _ & _ & Hex & Hdoc & _ & -> & _).
    rewrite List.map_app. apply NoDup_app. split; [done|].
    split; [|apply NoDup_singleton].
    intros k Hk Hk'. cbn in Hk'. apply list_elem_of_singleton in Hk'.
    subst k doc. cbn [user offer] in Hk.
    apply list_elem_of_In, in_map_iff in Hk as (p & [= H1 H2] & Hp).
    apply (proj1 (existsb_portfolio u (oid o) (portfolios s)) Hex p).
    + by apply list_elem_of_In.
    + done.
  - by rewrite (create_throw_portfolios _ _ _ _ e).
Qed.

(** *** More on the portfolio repository *)

(** X7.  An empty list of offer identifiers is a criterion, not the absence
    of one: [list] with it converts no offer identifier and returns no
    portfolio, while [list] without any criterion returns every portfolio
    of the store.  A user identifier, when given, is converted before the
    query: when it is no [ObjectId] the call throws the [BSONError] and no
    store is called. *)
Theorem list_empty_offerIds_matches_nothing (userId : option string)
    (s : State) :
  list_ userId (Some []) s
  = match userId with
    | Some id =>
        match newObjectId id with
        | Ok _ => (Ok [], setTrace s (trace s ++ [Fetch PortfolioStore]))
        | Throw e => (Throw e, s)
        end
    | None => (Ok [], setTrace s (trace s ++ [Fetch PortfolioStore]))
    end
  ∧ eval (list_ None None) s = Ok (portfolios s).
Proof.
  assert (Hnone : ∀ (u : option ObjectId) (ps : list Portfolio),
            List.filter (matchesFind (mkPortfolioFilter u (Some []) None)) ps
            = []).
  { intros u ps. induction ps as [|p ps IH]; [done|].
    cbn [List.filter]. unfold matchesFind at 1. cbn.
    rewrite bool_decide_eq_false_2 by (by intros ?%elem_of_nil).
    by rewrite andb_false_r. }
  unfold list_, portfolioRepository_find, findFilter.
  cbn [findUserId findOfferIds findIsAwarded newObjectIds]. split.
  - destruct userId as [id|].
    + destruct (newObjectId id) as [u|e]; [|reflexivity].
      run. by rewrite Hnone.
    + run. by rewrite Hnone.
  - run. f_equal.
    induction (portfolios s) as [|p ps IH]; [done|].
    cbn. by rewrite IH.
Qed.

(** X8.  [existsByUserIdAndOfferId] agrees with [find]: it converts the
    same two identifiers in the same order, so it throws what [find] for
    that user and that one offer throws, and otherwise answers [true]
    exactly when [find] returns a portfolio; the two calls leave the same
    state. *)
Theorem existsByUserIdAndOfferId_agrees_with_find
    (userId offerId : string) (s : State) :
  let found :=
    portfolioRepository_find
      (mkFindPortfolios (Some userId) (Some [offerId]) None) in
  portfolioRepository_existsByUserIdAndOfferId userId offerId s
  = (match eval found s with
     | Ok ps => Ok (match ps with [] => false | _ => true end)
     | Throw e => Throw e
     end,
     exec found s).
Proof.
  cbn zeta.
  assert (Hsame : ∀ (u o : ObjectId) (ps : list Portfolio),
            existsb (λ p, bool_decide (user p = u)
                          && bool_decide (offer p = o)) ps
            = match List.filter
                      (matchesFind (mkPortfolioFilter (Some u) (Some [o])
                                                      None)) ps with
              | [] => false
              | _ => true
              end).
  { intros u o ps. induction ps as [|p ps IH]; [done|].
    cbn [existsb List.filter]. unfold matchesFind at 1. cbn.
    rewrite andb_true_r.
    assert (bool_decide (offer p ∈ [o]) = bool_decide (offer p = o)) as ->.
    { apply bool_decide_ext. apply list_elem_of_singleton. }
    destruct (bool_decide (user p = u) && bool_decide (offer p = o));
      [done|]. cbn [orb]. exact IH. }
  unfold portfolioRepository_existsByUserIdAndOfferId,
    portfolioRepository_find, findFilter.
  cbn [findUserId findOfferIds findIsAwarded newObjectIds].
  destruct (newObjectId userId) as [u|e]; [|reflexivity].
  destruct (newObjectId offerId) as [o|e]; [|reflexivity].
  run. by rewrite Hsame.
Qed.

Lemma updateFirst_miss {A} (hit : A → bool) (f : A → A) (l : list A) :
  (∀ x, x ∈ l → hit x = false) → updateFirst hit f l = l.
Proof.
  induction l as [|x l IH]; intros H; [done|].
  cbn [updateFirst]. rewrite H by left. f_equal. apply IH.
  intros y Hy. apply H. by right.
Qed.

Lemma find_miss {A} (hit : A → bool) (l : list A) :
  (∀ x, x ∈ l → hit x = false) → List.find hit l = None.
Proof.
  induction l as [|x l IH]; intros H; [done|].
  cbn [List.find]. rewrite H by left. apply IH.
  intros y Hy. apply H. by right.
Qed.

(** X9.  [updateOneById] with a string that names no stored portfolio
    changes no collection: when the string is an [ObjectId] the store is
    asked and nothing comes back; when it is not, the [BSONError] of the
    conversion is thrown before the store is called. *)
Theorem updateOneById_unknown_id (id : string)
    (params : UpdatePortfolioEntityParams) (s : State) :
  (∀ p, p ∈ portfolios s → newObjectId id ≠ Ok (pid p)) →
  portfolioRepository_updateOneById id params s
  = match newObjectId id with
    | Ok _ => (Ok None, setTrace s (trace s ++ [Persist PortfolioStore]))
    | Throw e => (Throw e, s)
    end.
Proof.
  intros Hmiss.
  unfold portfolioRepository_updateOneById, portfolioModel_findOneAndUpdate.
  destruct (newObjectId id) as [i|e] eqn:Hi; [|reflexivity]. run.
  assert (H : ∀ p : Portfolio,
            p ∈ portfolios s → bool_decide (pid p = i) = false).
  { intros p Hp. apply bool_decide_eq_false_2. intros E.
    apply (Hmiss p Hp). by rewrite E. }
  rewrite (updateFirst_miss _ _ _ H), (find_miss _ _ H).
  by destruct s.
Qed.

(** X10.  Portfolio identifiers being unique, [updateOneById] on a stored
    portfolio returns the updated document, which is then the one found
    under that identifier; the fields that are not given keep their value,
    the user, the offer and the selection are never changed, and every
    other portfolio is as before. *)
Theorem updateOneById_updates_that_portfolio (p : Portfolio)
    (params : UpdatePortfolioEntityParams) (s : State) :
  NoDup (List.map pid (portfolios s)) →
  p ∈ portfolios s →
  let s' := exec (portfolioRepository_updateOneById (pid p) params) s in
  let p' := applyPortfolioUpdate params p in
  eval (portfolioRepository_updateOneById (pid p) params) s = Ok (Some p')
  ∧ portfolioById (pid p) (portfolios s') = Some p'
  ∧ (pid p' = pid p ∧ user p' = user p ∧ offer p' = offer p
     ∧ selectedTokens p' = selectedTokens p)
  ∧ (updIsAwarded params = None → isAwarded p' = isAwarded p)
  ∧ (updEarnedPoints params = None → earnedPoints p' = earnedPoints p)
  ∧ (∀ q, q ∈ portfolios s → pid q ≠ pid p →
          portfolioById (pid q) (portfolios s') = Some q)
  ∧ length (portfolios s') = length (portfolios s).
Proof.
  intros Hnd Hp. cbn zeta.
  unfold eval, exec, portfolioRepository_updateOneById,
    portfolioModel_findOneAndUpdate. run.
  rewrite newObjectId_toHexString. cbn [fst snd].
  unfold setTrace, setPortfolios. cbn [portfolios].
  rewrite (updateFirst_map pid) by done.
  set (f := λ y : Portfolio,
         if bool_decide (pid y = pid p) then applyPortfolioUpdate params y
         else y).
  assert (Hf : ∀ x, pid (f x) = pid x).
  { intros x. unfold f. by case_bool_decide. }
  assert (Hfp : f p = applyPortfolioUpdate params p).
  { unfold f. by rewrite bool_decide_eq_true_2. }
  pose proof (portfolioById_map f (portfolios s) p Hnd Hp Hf) as Hfind.
  rewrite Hfp in Hfind.
  split.
  { unfold portfolioById in Hfind.
    rewrite newObjectId_toHexString in Hfind. by rewrite Hfind. }
  split; [exact Hfind|].
  split; [done|].
  split; [by intros E; unfold applyPortfolioUpdate; cbn; rewrite E|].
  split; [by intros E; unfold applyPortfolioUpdate; cbn; rewrite E|].
  split; [|by rewrite List.length_map].
  intros q Hq Hne.
  pose proof (portfolioById_map f (portfolios s) q Hnd Hq Hf) as Hq'.
  unfold f at 2 in Hq'. by rewrite bool_decide_eq_false_2 in Hq'.
Qed.

(** *** More on awarding *)

Lemma takeWhile_split {A} (f : A → bool) (l : list A) :
  ∃ rest, l = (takeWhile f l ++ rest)%list
          ∧ takeWhile f rest = []
          ∧ forallb f rest = forallb f l.
Proof.
  induction l as [|x l (rest & E & Ht & Hf)]; [by exists []|].
  cbn [takeWhile forallb]. destruct (f x) eqn:Hx.
  - exists rest. cbn [app andb]. by rewrite <- E.
  - exists (x :: l). cbn [app takeWhile forallb]. by rewrite Hx.
Qed.

Lemma filter_none {A} (g : A → bool) (l : list A) :
  (∀ x, x ∈ l → g x = false) → List.filter g l = [].
Proof.
  induction l as [|x l IH]; intros H; [done|].
  cbn [List.filter]. rewrite H by left. apply IH.
  intros y Hy. apply H. by right.
Qed.

Lemma filter_all {A} (g : A → bool) (l : list A) :
  (∀ x, x ∈ l → g x = true) → List.filter g l = l.
Proof.
  induction l as [|x l IH]; intros H; [done|].
  cbn [List.filter]. rewrite H by left. f_equal. apply IH.
  intros y Hy. apply H. by right.
Qed.

(** The pending portfolios of an offer after some awards are those the
    awards do not name. *)
Lemma pendingOf_awardedBy (aw : list (Portfolio * num)) (o : Offer)
    (ps : list Portfolio) :
  pendingOf o (List.map (awardedBy aw) ps)
  = List.filter
      (λ p, match List.find (λ a, bool_decide (pid a.1 = pid p)) aw with
            | Some _ => false
            | None => true
            end)
      (pendingOf o ps).
Proof.
  unfold pendingOf. induction ps as [|p ps IH]; [done|].
  cbn [List.map List.filter]. rewrite IH. unfold awardedBy.
  destruct (List.find _ aw) as [a|] eqn:F.
  - cbn [isAwarded awardedPortfolio offer].
    rewrite (bool_decide_eq_false_2 (true = false)) by done.
    cbn [andb].
    destruct (bool_decide (isAwarded p = false)
              && bool_decide (offer p = oid o)); [|done].
    cbn [List.filter]. by rewrite F.
  - destruct (bool_decide (isAwarded p = false)
              && bool_decide (offer p = oid o)); [|done].
    cbn [List.filter]. by rewrite F.
Qed.

(** A pending portfolio of a waiting offer is named by the awards of the
    run exactly when it comes before the first portfolio of its offer that
    cannot be scored. *)
Lemma awarded_iff_in_prefix (s : State) (o : Offer) (p : Portfolio) :
  NoDup (List.map oid (offers s)) →
  NoDup (List.map pid (portfolios s)) →
  o ∈ offers s →
  offerStatus o = WaitingForCompletion →
  p ∈ pendingOf o (portfolios s) →
  is_Some (List.find (λ a, bool_decide (pid a.1 = pid p)) (awardsOfRun s))
  ↔ p ∈ takeWhile (scorable (pricingChanges o))
                  (pendingOf o (portfolios s)).
Proof.
  intros Ho Hp Hin Hst Hpend.
  pose proof (proj1 (pendingOf_elem _ _ _) Hpend) as (Hps & Hna & Hof).
  split.
  - intros [a F]. apply find_some in F as [F1 F2].
    apply bool_decide_eq_true_1 in F2.
    unfold awardsOfRun in F1. apply in_flat_map in F1 as (o' & Ho' & Ha).
    apply list_elem_of_In, awaiting_elem in Ho' as [Ho' Hst'].
    unfold awardsFor in Ha. apply in_map_iff in Ha as (q & <- & Hq).
    cbn [fst] in F2.
    pose proof Hq as Hq'. apply list_elem_of_In, takeWhile_elem in Hq'
      as [Hq' _].
    apply pendingOf_elem in Hq' as (Hq1 & _ & Hq3).
    assert (q = p) as -> by (by apply (key_inj_NoDup pid (portfolios s))).
    assert (o' = o) as ->.
    { apply (key_inj_NoDup oid (offers s)); [done|done|done|congruence]. }
    by apply list_elem_of_In.
  - intros Ht.
    assert ((p, sumOfChanges (pricingChanges o) (selectedTokens p))
            ∈ awardsOfRun s) as Ha.
    { unfold awardsOfRun. apply list_elem_of_In, in_flat_map. exists o.
      split; [by apply list_elem_of_In, awaiting_elem|].
      unfold awardsFor.
      apply (in_map (λ p, (p, sumOfChanges (pricingChanges o)
                                           (selectedTokens p)))).
      by apply list_elem_of_In. }
    rewrite (find_by_key (λ a : Portfolio * num, pid a.1) _
               (p, sumOfChanges (pricingChanges o) (selectedTokens p)));
      [by eexists|by apply awardsOfRun_NoDup|done].
Qed.

(** After a run, the pending portfolios of a waiting offer are those from
    the first that cannot be scored on. *)
Lemma pendingOf_after_run (s : State) (o : Offer) :
  NoDup (List.map oid (offers s)) →
  NoDup (List.map pid (portfolios s)) →
  o ∈ offers s →
  offerStatus o = WaitingForCompletion →
  let rest := pendingOf o (portfolios (exec awardPortfolios s)) in
  takeWhile (scorable (pricingChanges o)) rest = []
  ∧ forallb (scorable (pricingChanges o)) rest
    = allScorable o (portfolios s).
Proof.
  intros Ho Hp Hin Hst. cbn zeta.
  rewrite awardPortfolios_portfolios, pendingOf_awardedBy by done.
  destruct (takeWhile_split (scorable (pricingChanges o))
              (pendingOf o (portfolios s))) as (rest & E & Ht & Hf).
  assert (Hnd : NoDup (List.map pid (pendingOf o (portfolios s))))
    by (by apply NoDup_map_filter).
  assert (List.filter
            (λ p, match List.find (λ a, bool_decide (pid a.1 = pid p))
                                  (awardsOfRun s) with
                  | Some _ => false
                  | None => true
                  end)
            (pendingOf o (portfolios s)) = rest) as ->.
  { rewrite E at 1. rewrite List.filter_app.
    rewrite filter_none.
    2:{ intros x Hx.
        assert (x ∈ pendingOf o (portfolios s)) as Hxp.
        { rewrite E. apply elem_of_app. by left. }
        apply (awarded_iff_in_prefix s o x) in Hx as [a ->]; done. }
    rewrite filter_all; [done|].
    intros x Hx.
    assert (x ∈ pendingOf o (portfolios s)) as Hxp.
    { rewrite E. apply elem_of_app. by right. }
    destruct (List.find _ (awardsOfRun s)) as [a|] eqn:F; [|done].
    exfalso.
    assert (x ∈ takeWhile (scorable (pricingChanges o))
                          (pendingOf o (portfolios s))) as Hxt.
    { apply (awarded_iff_in_prefix s o x); try done; by eexists. }
    rewrite E, List.map_app in Hnd.
    apply NoDup_app in Hnd as (_ & Hdis & _).
    apply (Hdis (pid x)); apply list_elem_of_In, in_map;
      by apply list_elem_of_In. }
  unfold allScorable. by rewrite Hf.
Qed.

(** Rounds that award nothing and fail only add their failure to the
    log. *)
Lemma fold_failed_rounds (group : Offer → list Portfolio)
    (batch : list Offer) (st : State) :
  (∀ o, o ∈ batch →
        takeWhile (scorable (pricingChanges o)) (group o) = []
        ∧ forallb (scorable (pricingChanges o)) (group o) = false) →
  fold_left (λ st o, offerAwardedState (group o) o st) batch st
  = setTrace st
      (trace st
       ++ List.map
            (λ o, LogError ("Failed to award portfolios for offer: "
                            +:+ oid o) notFound)
            batch).
Proof.
  revert st. induction batch as [|o batch IH]; intros st H.
  - cbn. rewrite app_nil_r. by destruct st.
  - cbn [fold_left List.map]. destruct (H o) as [Ht Hf]; [left|].
    rewrite IH by (intros o' Ho'; apply H; by right).
    unfold offerAwardedState, awardsFor. rewrite Ht, Hf.
    cbn [List.map fold_left]. unfold setTrace. cbn.
    by rewrite <- app_assoc.
Qed.

Lemma still_waiting_after_run (s : State) (o : Offer) :
  NoDup (List.map oid (offers s)) →
  o ∈ awaiting (offers (exec awardPortfolios s)) →
  o ∈ offers s ∧ offerStatus o = WaitingForCompletion
  ∧ allScorable o (portfolios s) = false.
Proof.
  intros Ho Hw. apply awaiting_elem in Hw as [Hin Hst].
  destruct (awardPortfolios_offers s Ho) as [_ Hoff].
  rewrite Hoff in Hin.
  apply list_elem_of_In, in_map_iff in Hin as (o0 & E & Hin0).
  apply list_elem_of_In in Hin0.
  destruct (bool_decide (offerStatus o0 = WaitingForCompletion)) eqn:Hb;
    cbn [andb] in E.
  - destruct (allScorable o0 (portfolios s)) eqn:Hs.
    + subst o. done.
    + by subst o.
  - subst o. apply bool_decide_eq_false_1 in Hb. done.
Qed.

(** X11.  Identifiers being unique, a second run of [awardPortfolios]
    right after a first changes no collection: it reads the waiting offers
    and the portfolios, and logs one failure for each offer that still
    waits.  Nothing is awarded or credited twice, and an offer that failed
    fails again. *)
Theorem awardPortfolios_second_run_changes_nothing (s : State) :
  NoDup (List.map oid (offers s)) →
  NoDup (List.map pid (portfolios s)) →
  let s1 := exec awardPortfolios s in
  exec awardPortfolios s1
  = setTrace s1
      (trace s1
       ++ [Fetch OfferStore; Fetch PortfolioStore]
       ++ List.map
            (λ o, LogError ("Failed to award portfolios for offer: "
                            +:+ oid o) notFound)
            (awaiting (offers s1))).
Proof.
  intros Ho Hp s1. unfold exec at 1. rewrite awardPortfolios_run.
  cbn [snd]. unfold awardedRun.
  rewrite (fold_failed_rounds (λ o, pendingOf o (portfolios s1))).
  - unfold setTrace. cbn. by rewrite <- app_assoc.
  - intros o Hw.
    apply still_waiting_after_run in Hw as (Hin & Hst & Hsc); [|done].
    destruct (pendingOf_after_run s o Ho Hp Hin Hst) as [Ht Hf].
    fold s1 in Ht, Hf. split; [done|]. by rewrite Hf.
Qed.

(** X12.  Identifiers being unique, a run of [awardPortfolios] creates and
    deletes no portfolio, and the only portfolios it changes are pending
    portfolios of a waiting offer that can be scored: each becomes awarded
    with its points.  In particular a portfolio that is already awarded,
    one of an offer that does not wait for completion and one with a token
    that has no pricing change are all left as they are. *)
Theorem awardPortfolios_changes_only_scorable_pending
    (s : State) (p : Portfolio) :
  NoDup (List.map oid (offers s)) →
  NoDup (List.map pid (portfolios s)) →
  p ∈ portfolios s →
  let s1 := exec awardPortfolios s in
  List.map pid (portfolios s1) = List.map pid (portfolios s)
  ∧ (portfolioById (pid p) (portfolios s1) = Some p
     ∨ ∃ o, o ∈ offers s
            ∧ offerStatus o = WaitingForCompletion
            ∧ offer p = oid o
            ∧ isAwarded p = false
            ∧ scorable (pricingChanges o) p = true
            ∧ portfolioById (pid p) (portfolios s1)
              = Some (awardedPortfolio
                        (sumOfChanges (pricingChanges o) (selectedTokens p))
                        p)).
Proof.
  intros Ho Hp Hin s1. subst s1.
  rewrite awardPortfolios_portfolios by done. split.
  { rewrite List.map_map. apply map_ext. intros q. apply awardedBy_pid. }
  rewrite portfolioById_map; [|done|done|apply awardedBy_pid].
  unfold awardedBy.
  destruct (List.find _ (awardsOfRun s)) as [a|] eqn:F; [|by left].
  right. apply find_some in F as [F1 F2].
  apply bool_decide_eq_true_1 in F2.
  apply list_elem_of_In, awardsOfBatch_elem in F1
    as (o & Hw & Ha1 & Ha2 & Ha3 & Ha4 & Ha5).
  apply awaiting_elem in Hw as [Hw Hst].
  assert (a.1 = p) as Ea by (by apply (key_inj_NoDup pid (portfolios s))).
  rewrite Ea in *. exists o. by rewrite Ha5.
Qed.

(** X13.  When no offer waits for completion, [awardPortfolios] reads the
    offers and asks for the portfolios of no offer, and writes nothing: the
    state after the run is the one before with these two reads in the
    trace. *)
Theorem awardPortfolios_without_waiting_offer (s : State) :
  (∀ o, o ∈ offers s → offerStatus o ≠ WaitingForCompletion) →
  awardPortfolios s
  = (Ok (),
     setTrace s (trace s ++ [Fetch OfferStore; Fetch PortfolioStore])).
Proof.
  intros Hnone. rewrite awardPortfolios_run. unfold awardedRun.
  assert (awaiting (offers s) = []) as ->; [|done].
  apply filter_none. intros o Ho.
  apply bool_decide_eq_false_2. by apply Hnone.
Qed.

(** X14.  Offer identifiers being unique, a run of [awardPortfolios]
    creates and deletes no offer and changes nothing of an offer but the
    status of a waiting offer, which becomes [Completed]: the day, the
    pairs and the pricing changes of every offer are kept, and an offer
    that waits for its prices or is completed is left as it is. *)
Theorem awardPortfolios_changes_only_status (s : State) (o : Offer) :
  NoDup (List.map oid (offers s)) →
  o ∈ offers s →
  let s1 := exec awardPortfolios s in
  List.map oid (offers s1) = List.map oid (offers s)
  ∧ ∃ o1, offerById (oid o) (offers s1) = Some o1
          ∧ day o1 = day o
          ∧ tokenOffers o1 = tokenOffers o
          ∧ pricingChanges o1 = pricingChanges o
          ∧ (offerStatus o1 = offerStatus o
             ∨ offerStatus o = WaitingForCompletion
               ∧ offerStatus o1 = Completed)
          ∧ (offerStatus o ≠ WaitingForCompletion → o1 = o).
Proof.
  intros Ho Hin s1. subst s1.
  destruct (awardPortfolios_offers s Ho) as [_ ->].
  assert (Hid : ∀ x : Offer,
            oid (if bool_decide (offerStatus x = WaitingForCompletion)
                    && allScorable x (portfolios s)
                 then completedOffer x else x) = oid x).
  { intros x. by destruct (_ && _). }
  split.
  { rewrite List.map_map. by apply map_ext. }
  rewrite offerById_map by done. eexists. split; [reflexivity|].
  case_bool_decide as Hst; cbn [andb].
  - destruct (allScorable o (portfolios s)).
    + repeat split; try done. right. done.
    + repeat split; try done. by left.
  - repeat split; try done. by left.
Qed.

(** *** More on the pricing sync *)

Lemma synced_frame (batch : list Offer) (s : State) :
  let st := fold_left (λ st o, syncedState o st) batch s in
  portfolios st = portfolios s ∧ users st = users s.
Proof.
  revert s. induction batch as [|o batch IH]; intros s; [done|].
  cbn [fold_left]. cbn zeta.
  destruct (IH (syncedState o s)) as [-> ->].
  unfold syncedState. by destruct (allPriced o).
Qed.

Lemma syncOffersPrices_frame (s : State) :
  portfolios (exec syncOffersPrices s) = portfolios s
  ∧ users (exec syncOffersPrices s) = users s.
Proof.
  unfold syncOffersPrices, portfolioOfferRepository_findByOfferStatus. run.
  case_bool_decide; [done|].
  rewrite forOf_syncOffer. cbn [snd].
  match goal with |- context [fold_left _ ?b ?st] =>
    destruct (synced_frame b st) as [-> ->] end.
  done.
Qed.

(** X15.  Offer identifiers being unique, the pricing sync creates and
    deletes no offer, touches no portfolio and no user, and leaves as it is
    every offer that does not wait for its prices or whose day is after the
    current day: an offer already priced keeps its pricing changes, and an
    offer of a coming day is not priced. *)
Theorem syncOffersPrices_leaves_other_offers (s : State) (o : Offer) :
  NoDup (List.map oid (offers s)) →
  o ∈ offers s →
  ¬ dueForPricing o →
  let s' := exec syncOffersPrices s in
  offerById (oid o) (offers s') = Some o
  ∧ List.map oid (offers s') = List.map oid (offers s)
  ∧ portfolios s' = portfolios s
  ∧ users s' = users s.
Proof.
  intros Hnd Ho Hdue. cbn zeta.
  destruct (syncOffersPrices_offers s Hnd) as [_ Hoff].
  destruct (syncOffersPrices_frame s) as [Hp Hu].
  assert (Hid : ∀ x : Offer,
            oid (if bool_decide (dueForPricing x) && allPriced x
                 then pricedOffer x else x) = oid x).
  { intros x. by destruct (_ && _). }
  rewrite Hoff. split; [|split; [|done]].
  - rewrite offerById_map by done.
    by rewrite (bool_decide_eq_false_2 (dueForPricing o)).
  - rewrite List.map_map. by apply map_ext.
Qed.

(** The pricing change stored for a token after pricing a list of tokens. *)
Lemma priceAll_lookup (d : Z) (ts : list string) (acc : gmap string num)
    (t : string) :
  priceAll d ts acc !! t
  = match getCoinPriceForDay t d with
    | Some p =>
        if bool_decide (t ∈ ts)
        then Some (calculatePercentageChange (startDayPrice p)
                                             (endDayPrice p))
        else acc !! t
    | None => acc !! t
    end.
Proof.
  unfold priceAll. revert acc. induction ts as [|x ts IH]; intros acc.
  - cbn. by destruct (getCoinPriceForDay t d).
  - cbn [fold_left]. rewrite IH.
    destruct (getCoinPriceForDay t d) as [p|] eqn:Et.
    + destruct (decide (t ∈ ts)) as [Hin|Hin].
      * rewrite !bool_decide_eq_true_2; [done|by right|done].
      * rewrite (bool_decide_eq_false_2 (t ∈ ts)) by done.
        destruct (decide (x = t)) as [->|Hne].
        -- rewrite bool_decide_eq_true_2 by left.
           by rewrite Et, lookup_insert_eq.
        -- rewrite bool_decide_eq_false_2.
           2:{ intros H. apply elem_of_cons in H as [->|H]; done. }
           destruct (getCoinPriceForDay x d); [|done].
           by rewrite lookup_insert_ne.
    + destruct (getCoinPriceForDay x d) as [q|] eqn:Ex; [|done].
      rewrite lookup_insert_ne; [done|]. intros ->. congruence.
Qed.

(** X16.  Offer identifiers being unique, an offer the sync fetches whose
    tokens are all priced by the gateway is stored as waiting for
    completion with a pricing change for each of its tokens, computed from
    the prices of that token on the day of the offer, and with no pricing
    change for any other token; its day and its pairs are kept. *)
Theorem syncOffersPrices_prices_every_token (s : State) (o : Offer) :
  NoDup (List.map oid (offers s)) →
  o ∈ offers s →
  dueForPricing o →
  allPriced o = true →
  ∃ o1,
    offerById (oid o) (offers (exec syncOffersPrices s)) = Some o1
    ∧ offerStatus o1 = WaitingForCompletion
    ∧ day o1 = day o
    ∧ tokenOffers o1 = tokenOffers o
    ∧ (∀ t, t ∈ offerTokens o →
            ∃ p, getCoinPriceForDay t (day o) = Some p
                 ∧ pricingChanges o1 !! t
                   = Some (calculatePercentageChange (startDayPrice p)
                                                     (endDayPrice p)))
    ∧ (∀ t, t ∉ offerTokens o → pricingChanges o1 !! t = None).
Proof.
  intros Hnd Ho Hdue Hp.
  destruct (syncOffersPrices_offers s Hnd) as [_ Hoff].
  exists (pricedOffer o). rewrite Hoff. split.
  { rewrite offerById_map; [|done|done|].
    - by rewrite Hp, bool_decide_eq_true_2.
    - intros x. by destruct (_ && _). }
  split; [done|]. split; [done|]. split; [done|]. split.
  - intros t Ht.
    destruct (proj1 (allPriced_true o) Hp t Ht) as [p Ep].
    exists p. split; [done|]. cbn [pricedOffer pricingChanges].
    by rewrite priceAll_lookup, Ep, bool_decide_eq_true_2.
  - intros t Ht. cbn [pricedOffer pricingChanges].
    rewrite priceAll_lookup.
    destruct (getCoinPriceForDay t (day o)); [|done].
    by rewrite bool_decide_eq_false_2.
Qed.

(** X17.  Offer identifiers being unique and the gateway answering the
    same, a second pricing sync right after a first changes no offer: the
    offers it priced no longer wait for their prices, and the offers it
    could not price cannot be priced now either. *)
Theorem syncOffersPrices_twice (s : State) :
  NoDup (List.map oid (offers s)) →
  let s1 := exec syncOffersPrices s in
  offers (exec syncOffersPrices s1) = offers s1.
Proof.
  intros Hnd. cbn zeta.
  destruct (syncOffersPrices_offers s Hnd) as [_ Hoff].
  assert (Hnd1 : NoDup (List.map oid (offers (exec syncOffersPrices s)))).
  { rewrite Hoff, List.map_map. erewrite map_ext; [exact Hnd|].
    intros x. by destruct (_ && _). }
  destruct (syncOffersPrices_offers _ Hnd1) as [_ ->].
  rewrite Hoff, List.map_map. apply map_ext. intros o.
  destruct (bool_decide (dueForPricing o) && allPriced o) eqn:Hsel.
  - rewrite (bool_decide_eq_false_2 (dueForPricing (pricedOffer o)));
      [done|].
    by intros [? _].
  - by rewrite Hsel.
Qed.

(** A portfolio can be scored against a priced offer exactly when each of
    its selected tokens is a token of the offer. *)
Lemma priced_offer_scores_its_tokens (o : Offer) (p : Portfolio) :
  allPriced o = true →
  (scorable (pricingChanges (pricedOffer o)) p = true
   ↔ ∀ t, t ∈ selectedTokens p → t ∈ offerTokens o)
  ∧ (validSelection (selectedTokens p) o →
     scorable (pricingChanges (pricedOffer o)) p = true).
Proof.
  intros Hp.
  assert (Hiff : scorable (pricingChanges (pricedOffer o)) p = true
                 ↔ ∀ t, t ∈ selectedTokens p → t ∈ offerTokens o).
  { unfold scorable. rewrite forallb_forall. split.
    - intros H t Ht. apply list_elem_of_In, H in Ht.
      apply bool_decide_eq_true_1 in Ht as [c Hc].
      cbn [pricedOffer pricingChanges] in Hc.
      rewrite priceAll_lookup in Hc.
      destruct (getCoinPriceForDay t (day o)); [|done].
      destruct (decide (t ∈ offerTokens o)) as [Hin|Hin]; [done|].
      by rewrite bool_decide_eq_false_2 in Hc.
    - intros H t Ht. apply bool_decide_eq_true_2.
      apply list_elem_of_In, H in Ht.
      destruct (proj1 (allPriced_true o) Hp t Ht) as [q Eq].
      cbn [pricedOffer pricingChanges].
      rewrite priceAll_lookup, Eq, bool_decide_eq_true_2 by done.
      by eexists. }
  split; [exact Hiff|].
  intros Hvalid. apply Hiff. intros t Ht.
  apply list_elem_of_lookup in Ht as [i Hi].
  destruct (Hvalid i t Hi) as (pair & Hpair & Hor).
  unfold offerTokens. apply list_elem_of_In, in_flat_map.
  exists pair. split.
  - apply list_elem_of_In, list_elem_of_lookup. by exists i.
  - destruct Hor as [<-|<-]; cbn; [by left|right; by left].
Qed.

(** X18.  Offer identifiers being unique, once the sync has priced an
    offer, the sum that [awardPortfolios] computes for a portfolio against
    the stored offer succeeds exactly when each selected token is a token of
    the offer.  So a selection that passes the token check of [create] can
    always be scored, and one with a token that is not of the offer makes
    the sum throw. *)
Theorem synced_offer_scores_its_tokens (s : State) (o : Offer)
    (p : Portfolio) :
  NoDup (List.map oid (offers s)) →
  o ∈ offers s →
  dueForPricing o →
  allPriced o = true →
  ∃ o1,
    offerById (oid o) (offers (exec syncOffersPrices s)) = Some o1
    ∧ ((∃ points,
          reducePoints (pricingChanges o1) zero (selectedTokens p)
          = Ok points)
       ↔ ∀ t, t ∈ selectedTokens p → t ∈ offerTokens o)
    ∧ (validSelection (selectedTokens p) o →
       ∃ points,
         reducePoints (pricingChanges o1) zero (selectedTokens p)
         = Ok points)
    ∧ ((∃ t, t ∈ selectedTokens p ∧ t ∉ offerTokens o) →
       reducePoints (pricingChanges o1) zero (selectedTokens p)
       = Throw notFound).
Proof.
  intros Hnd Ho Hdue Hp.
  destruct (syncOffersPrices_offers s Hnd) as [_ Hoff].
  exists (pricedOffer o). rewrite Hoff. split.
  { rewrite offerById_map; [|done|done|].
    - by rewrite Hp, bool_decide_eq_true_2.
    - intros x. by destruct (_ && _). }
  destruct (priced_offer_scores_its_tokens o p Hp) as [Hiff Hvalid].
  rewrite reducePoints_run.
  fold (scorable (pricingChanges (pricedOffer o)) p).
  destruct (scorable (pricingChanges (pricedOffer o)) p) eqn:Hs.
  - split; [|split].
    + split; [intros _; by apply Hiff|intros _; by eexists].
    + intros _. by eexists.
    + intros (t & Ht & Hnot). exfalso. apply Hnot.
      by apply (proj1 Hiff eq_refl).
  - split; [|split].
    + split; [by intros [? ?]|]. intros H. apply Hiff in H. done.
    + intros H. apply Hvalid in H. done.
    + done.
Qed.

(** *** More on generating offers *)

(** The outcome of [generateOffers]. *)
Lemma generateOffers_run (s : State) :
  generateOffers s
  = if bool_decide (nextDayOf (offers s) - currentDay > MAX_DAYS_THRESHOLD)
    then (Ok (), setTrace s (trace s ++ [Fetch OfferStore]))
    else
      (Ok (),
       mkState
         (offers s
          ++ insertOffers (nextId s)
               (batchFrom 8 (nextDayOf (offers s)) (draws s)))
         (portfolios s) (users s) (nextId s + 8)%nat (draws s + 8)%nat
         (trace s ++ [Fetch OfferStore; Persist OfferStore])).
Proof.
  unfold generateOffers, portfolioOfferRepository_findLatest. run.
  fold (nextDayOf (offers s)).
  case_bool_decide as Hgap; [reflexivity|].
  rewrite generateLoop_run by (unfold OFFERS_TO_GENERATE; lia).
  replace (Z.to_nat (nextDayOf (offers s) + OFFERS_TO_GENERATE + 1
                     - nextDayOf (offers s))) with 8%nat
    by (unfold OFFERS_TO_GENERATE; lia).
  unfold setDraws, portfolioOfferRepository_createMany.
  cbn [app fst snd offers portfolios users nextId draws trace].
  rewrite batchFrom_length, <- app_assoc. reflexivity.
Qed.

Lemma batch_days (m : nat) (d : Z) (k n : nat) :
  NoDup (List.map day (insertOffers n (batchFrom m d k)))
  ∧ (∀ x, x ∈ List.map day (insertOffers n (batchFrom m d k)) →
          d ≤ x < d + Z.of_nat m)
  ∧ ((0 < m)%nat →
     d + Z.of_nat m - 1 ∈ List.map day (insertOffers n (batchFrom m d k))).
Proof.
  revert d k n. induction m as [|m IH]; intros d k n.
  - cbn. split; [constructor|]. split; [|lia].
    intros x Hx. by apply elem_of_nil in Hx.
  - cbn [batchFrom insertOffers List.map day newDay].
    destruct (IH (d + 1) (S k) (S n)) as (H1 & H2 & H3).
    split; [|split].
    + apply NoDup_cons. split; [|done].
      intros Hd. apply H2 in Hd. lia.
    + intros x Hx. apply elem_of_cons in Hx as [->|Hx]; [lia|].
      apply H2 in Hx. lia.
    + intros _. destruct (Nat.eq_dec m 0) as [->|Hm].
      * replace (d + Z.of_nat 1 - 1) with d by lia. left.
      * right.
        replace (d + Z.of_nat (S m) - 1)
          with (d + 1 + Z.of_nat m - 1) by lia.
        apply H3. lia.
Qed.

Lemma days_before_next (os : list Offer) (o : Offer) :
  o ∈ os → day o < nextDayOf os.
Proof.
  intros Ho. pose proof (nextDayOf_spec os) as H.
  destruct os as [|o0 os]; [by apply elem_of_nil in Ho|].
  destruct H as (b & _ & Hmax & ->). specialize (Hmax o Ho). lia.
Qed.

(** X19.  [generateOffers] only appends offers: the offers of the store
    are kept, in their order, the portfolios and the users are not
    touched, and when no two offers of the store have the same day, no two
    have after the run, whatever the samples are. *)
Theorem generateOffers_keeps_days_unique (s : State) :
  NoDup (List.map day (offers s)) →
  let s' := exec generateOffers s in
  NoDup (List.map day (offers s'))
  ∧ (∃ batch, offers s' = (offers s ++ batch)%list)
  ∧ portfolios s' = portfolios s
  ∧ users s' = users s.
Proof.
  intros Hnd. cbn zeta. unfold exec. rewrite generateOffers_run.
  case_bool_decide as Hgap; cbn [snd offers portfolios users setTrace].
  - split; [done|]. split; [|done]. exists []. by rewrite app_nil_r.
  - split; [|split; [by eexists|done]].
    destruct (batch_days 8 (nextDayOf (offers s)) (draws s) (nextId s))
      as (H1 & H2 & _).
    rewrite List.map_app. apply NoDup_app. split; [done|]. split; [|done].
    intros x Hx Hx'. apply H2 in Hx'.
    apply list_elem_of_In, in_map_iff in Hx as (o & <- & Ho).
    apply list_elem_of_In, days_before_next in Ho. lia.
Qed.

(** X20.  A run of [generateOffers] on which the guard does not fire moves
    the next day to generate eight days on.  The batch starts one day after
    the latest offer even when that day is before the current day; and
    unless the store was five days or more behind the current day, a second
    run on the same day finds the guard and generates nothing. *)
Theorem generateOffers_advances_eight_days (s : State) :
  nextDayOf (offers s) - currentDay ≤ MAX_DAYS_THRESHOLD →
  let s' := exec generateOffers s in
  nextDayOf (offers s') = nextDayOf (offers s) + 8
  ∧ (∀ o, o ∈ offers s' → o ∉ offers s → nextDayOf (offers s) ≤ day o)
  ∧ (currentDay - nextDayOf (offers s) ≤ 4 →
     offers (exec generateOffers s') = offers s').
Proof.
  intros Hgap. cbn zeta.
  assert (E : exec generateOffers s
              = mkState
                  (offers s
                   ++ insertOffers (nextId s)
                        (batchFrom 8 (nextDayOf (offers s)) (draws s)))
                  (portfolios s) (users s) (nextId s + 8)%nat
                  (draws s + 8)%nat
                  (trace s ++ [Fetch OfferStore; Persist OfferStore])).
  { unfold exec. rewrite generateOffers_run.
    by rewrite bool_decide_eq_false_2 by lia. }
  destruct (batch_days 8 (nextDayOf (offers s)) (draws s) (nextId s))
    as (_ & H2 & H3).
  assert (Hnext : nextDayOf (offers (exec generateOffers s))
                  = nextDayOf (offers s) + 8).
  { rewrite E. cbn [offers].
    pose proof (nextDayOf_spec
                  (offers s
                   ++ insertOffers (nextId s)
                        (batchFrom 8 (nextDayOf (offers s)) (draws s))))
      as Hspec.
    destruct (offers s ++ _)%list as [|o0 os'] eqn:Eos.
    { exfalso. specialize (H3 ltac:(lia)).
      apply list_elem_of_In, in_map_iff in H3 as (x & _ & Hx).
      apply (f_equal (@length _)) in Eos. rewrite length_app in Eos.
      destruct (insertOffers _ _); [done|]. cbn in Eos. lia. }
    destruct Hspec as (b & Hb & Hmax & ->). rewrite <- Eos in Hb, Hmax.
    assert (day b ≤ nextDayOf (offers s) + 7).
    { apply elem_of_app in Hb as [Hb|Hb].
      - apply days_before_next in Hb. lia.
      - assert (day b ∈ List.map day
                  (insertOffers (nextId s)
                     (batchFrom 8 (nextDayOf (offers s)) (draws s)))) as Hd.
        { apply list_elem_of_In, in_map. by apply list_elem_of_In. }
        apply H2 in Hd. lia. }
    assert (nextDayOf (offers s) + 7 ≤ day b).
    { specialize (H3 ltac:(lia)).
      apply list_elem_of_In, in_map_iff in H3 as (x & Hx & Hin).
      specialize (Hmax x). rewrite elem_of_app in Hmax.
      specialize (Hmax (or_intror (proj2 (list_elem_of_In _ _) Hin))).
      lia. }
    lia. }
  split; [exact Hnext|]. split.
  - intros o Ho Hnew. rewrite E in Ho. cbn [offers] in Ho.
    apply elem_of_app in Ho as [Ho|Ho]; [done|].
    assert (day o ∈ List.map day
              (insertOffers (nextId s)
                 (batchFrom 8 (nextDayOf (offers s)) (draws s)))) as Hd.
    { apply list_elem_of_In, in_map. by apply list_elem_of_In. }
    apply H2 in Hd. lia.
  - intros Hbehind. unfold exec at 1. rewrite generateOffers_run.
    rewrite bool_decide_eq_true_2; [done|].
    rewrite Hnext. unfold MAX_DAYS_THRESHOLD. lia.
Qed.

End Game.
(** ** Concrete runs *)

Module Runs.

Import Sample.

Local Abbreviation award := (awardPortfolios 0 Z.add).
Local Abbreviation sync := (syncOffersPrices percentage today gateway).
Local Abbreviation generate :=
  (generateOffers today dateOf universe sampler newId).

(** Every sample of the sampler is made of twelve distinct tokens. *)
Lemma sampler_twelve (k : nat) :
  length (sampler k universe 12) = 12%nat ∧ NoDup (sampler k universe 12).
Proof.
  unfold sampler. destruct (Nat.even k).
  - split; [reflexivity|]. apply (bool_decide_unpack _). by vm_compute.
  - split; [reflexivity|]. apply (bool_decide_unpack _). by vm_compute.
Defined.

(** The portfolio of u1 for w1 is listed; w2 has none. *)
Lemma listForUserAndOffers_witness :
  listForUserAndOffers u1 [] sound
  = (Throw (BadRequestException "At least one offer should be provided."),
     sound)
  ∧ listForUserAndOffers u1 [(w2 : string); (w1 : string)] sound
    = (Ok [pickA], setTrace sound [Fetch PortfolioStore]).
Proof.
  destruct (listForUserAndOffers_empty_rejected_else_queried u1 sound)
    as [H1 H2].
  split; [exact H1|].
  rewrite (H2 w2 [(w1 : string)]). reflexivity.
Defined.

(** With an offer identifier that is no [ObjectId] the list is not empty,
    yet no portfolio is returned and no store is queried: the conversion
    throws. *)
Lemma listForUserAndOffers_malformed_id_throws :
  length [malformed] ≠ 0%nat
  ∧ listForUserAndOffers u1 [malformed] sound
    = (Throw BSONError, sound)
  ∧ (∀ msg, BSONError ≠ BadRequestException msg)
  ∧ List.filter isStoreCall
      (added sound (exec (listForUserAndOffers u1 [malformed]) sound))
    = [].
Proof. by vm_compute. Qed.

(** The offers of yesterday and today among offers up to day 104. *)
Lemma listOffersForDays_witness :
  ∃ found,
    eval (listOffersForDays today 1) ahead = Ok found
    ∧ (∀ o, o ∈ found ↔ o ∈ offers ahead ∧ today - 1 ≤ day o ≤ today)
    ∧ (∀ o, o ∈ offers ahead → day o = today → o ∈ found)
    ∧ (∀ o, o ∈ found → day o ≤ today)
    ∧ offers (exec (listOffersForDays today 1) ahead) = offers ahead.
Proof. apply (listOffersForDays_closed_interval today 1 ahead). lia. Defined.

(** Offers are queued up to day 104 on day 100: nothing is generated. *)
Lemma generateOffers_guard_witness :
  offers (exec generate ahead) = offers ahead
  ∧ List.filter isWrite (added ahead (exec generate ahead)) = [].
Proof.
  apply (generateOffers_day_gap_guard today dateOf universe sampler newId
           ahead queued).
  - right. left.
  - intros o Ho. apply elem_of_cons in Ho as [->|Ho]; [by vm_compute|].
    apply elem_of_cons in Ho as [->|Ho]; [by vm_compute|].
    apply elem_of_cons in Ho as [->|Ho]; [by vm_compute|].
    by apply elem_of_nil in Ho.
  - by vm_compute.
Defined.

(** Distinctness of given identifiers is decided by computation. *)
Lemma NoDup_by_computation (l : list ObjectId) :
  bool_decide (NoDup l) = true → NoDup l.
Proof. apply bool_decide_eq_true_1. Defined.

(** SOL has no price: the first offer is left as it is, the second is
    priced. *)
Lemma syncOffersPrices_witness :
  eval sync unpriced = Ok ()
  ∧ offerById o1 (offers (exec sync unpriced)) = Some withSol
  ∧ offerStatus withSol = WaitingForPricing
  ∧ offerById o2 (offers (exec sync unpriced))
    = Some (pricedOffer percentage gateway withoutSol).
Proof.
  destruct (syncOffersPrices_absent_token_leaves_offer percentage today
              gateway unpriced withSol "SOL")
    as (H1 & H2 & H3 & H4).
  - apply NoDup_by_computation. by vm_compute.
  - left.
  - split; [reflexivity|by vm_compute].
  - right. right. left.
  - reflexivity.
  - split; [exact H1|]. split; [exact H2|]. split; [exact H3|].
    apply (H4 withoutSol).
    + right. left.
    + split; [reflexivity|by vm_compute].
    + reflexivity.
Defined.

(** The round of the offer with SOL ends in the catch. *)
Lemma tokenHandler_witness :
  syncOfferBody percentage gateway withSol unpriced
  = (Throw absentError, unpriced)
  ∧ syncOffer percentage gateway withSol unpriced
    = (Ok (),
       setTrace unpriced
         [LogError "Failed to update offer prices" absentError;
          LogLine "Offer 00000000000000000000dd01 prices updated"]).
Proof.
  destruct (tokenHandler_absent_reaches_catch percentage gateway withSol
              "SOL" unpriced) as (_ & H2 & H3 & _).
  - right. right. left.
  - reflexivity.
  - split; [exact H2|exact H3].
Defined.

(** The portfolio that picked B earns -3, once: the balance goes from 1000
    to 997 and stays there after a second run. *)
Lemma awardPortfolios_awards_witness :
  portfolioById p2 (portfolios (exec award sound))
  = Some (mkPortfolio p2 u2 w1 ["B"] true (Some (-3)))
  ∧ List.filter (λ a : Portfolio Z * Z, bool_decide (pid a.1 = p2))
                (awardsOfRun 0 Z.add sound) = [(pickB, -3)]
  ∧ balance <$> (users (exec award sound) !! u2) = Some 997
  ∧ portfolioById p2 (portfolios (exec award (exec award sound)))
    = Some (mkPortfolio p2 u2 w1 ["B"] true (Some (-3)))
  ∧ balance <$> (users (exec award (exec award sound)) !! u2) = Some 997.
Proof.
  destruct (awardPortfolios_awards_once 0 Z.add sound scored [pickA] []
              pickB) as (H1 & H2 & H3 & _ & H5 & _ & H7).
  - apply NoDup_by_computation. by vm_compute.
  - apply NoDup_by_computation. by vm_compute.
  - left.
  - reflexivity.
  - reflexivity.
  - reflexivity.
  - reflexivity.
  - reflexivity.
  - intros q Hq _ _. apply elem_of_cons in Hq as [->|Hq]; [reflexivity|].
    by apply elem_of_nil in Hq.
  - split; [exact H1|]. split; [exact H2|].
    split; [rewrite (H3 u2); reflexivity|].
    split; [exact H5|].
    rewrite (H7 u2). by vm_compute.
Defined.

(** Both portfolios of the offer are scored: the offer is completed. *)
Lemma awardPortfolios_completion_witness :
  offerById w1 (offers (exec award sound)) = Some (completedOffer scored)
  ∧ ∃ waiting,
      eval listOffersWaitingForCompletion (exec award sound) = Ok waiting
      ∧ ∀ w, w ∈ waiting → oid w ≠ w1.
Proof.
  destruct (awardPortfolios_completes_scored_offer 0 Z.add sound scored)
    as [H _].
  - apply NoDup_by_computation. by vm_compute.
  - left.
  - reflexivity.
  - apply H. reflexivity.
Defined.

(** The offer without portfolios is completed. *)
Lemma awardPortfolios_empty_group_witness :
  offerById w2 (offers (exec award sound)) = Some (completedOffer lonely)
  ∧ ∀ a, a ∈ awardsOfRun 0 Z.add sound → offer a.1 ≠ w2.
Proof.
  destruct (awardPortfolios_completes_offer_without_portfolios 0 Z.add
              sound lonely) as (H1 & _ & _ & H4).
  - apply NoDup_by_computation. by vm_compute.
  - right. left.
  - reflexivity.
  - reflexivity.
  - split; [exact H1|exact H4].
Defined.

(** On an empty store, day 100, the offers of days 100 to 107 are
    generated. *)
Lemma generateOffers_batch_witness :
  ∃ batch : list (Offer Z),
    offers (exec generate fresh) = batch
    ∧ length batch = 8%nat
    ∧ List.map day batch = [100; 101; 102; 103; 104; 105; 106; 107].
Proof.
  destruct (generateOffers_batch_of_eight today dateOf universe sampler
              newId fresh) as (_ & batch & H1 & H2 & _).
  - by vm_compute.
  - apply sampler_twelve.
  - exists batch. split; [exact H1|]. split; [exact H2|].
    cbn [offers fresh app] in H1. rewrite <- H1. reflexivity.
Defined.

(** A commitment to DOGE on the pair (BTC, ETH) is stored. *)
Lemma create_foreign_token_witness :
  let doc := mkPortfolio (newId 0) u1 o3 ["DOGE"] false None in
  tokenOffers tomorrow = [mkTokenOffer "BTC" "ETH"]
  ∧ eval (create today newId u1 o3 ["DOGE"]) committing = Ok doc
  ∧ portfolios (exec (create today newId u1 o3 ["DOGE"]) committing)
    = [doc].
Proof.
  intros doc. split; [reflexivity|].
  apply (create_stores_any_tokens_of_right_length today newId committing
           u1 o3 ["DOGE"] tomorrow u1 alice).
  - reflexivity.
  - reflexivity.
  - reflexivity.
  - reflexivity.
  - reflexivity.
  - intros p Hp. by apply elem_of_nil in Hp.
Defined.

(** A portfolio that can be scored is left out when a portfolio of its
    offer stored before it cannot: the second portfolio picks A, whose
    change is known, and after the run it is not awarded and the balance of
    its user is the one before. *)
Lemma award_skips_portfolio_after_failure :
  pickA2 ∈ portfolios spoiled
  ∧ scored ∈ offers spoiled
  ∧ offerStatus scored = WaitingForCompletion
  ∧ offer pickA2 = oid scored
  ∧ isAwarded pickA2 = false
  ∧ scorable (pricingChanges scored) pickA2 = true
  ∧ portfolioById p2 (portfolios (exec award spoiled)) = Some pickA2
  ∧ users (exec award spoiled) !! u2 = Some bob.
Proof.
  split; [right; left|]. split; [left|]. by vm_compute.
Qed.

(** An offer one of whose portfolios fails is not completed: the failure
    is logged, the offer still waits for completion and the next listing of
    the waiting offers returns it. *)
Lemma failed_offer_is_not_completed :
  scored ∈ offers spoiled
  ∧ offerStatus scored = WaitingForCompletion
  ∧ LogError ("Failed to award portfolios for offer: " +:+ w1) notFound
    ∈ trace (exec award spoiled)
  ∧ offerById w1 (offers (exec award spoiled)) = Some scored
  ∧ eval listOffersWaitingForCompletion (exec award spoiled) = Ok [scored].
Proof.
  split; [left|]. split; [reflexivity|].
  split; [|by vm_compute].
  apply list_elem_of_In. vm_compute. tauto.
Qed.

(** The check answers [true] for ETH on the pair (BTC, ETH). *)
Lemma validateSelectedTokens_witness :
  ∃ b, validateSelectedTokens ["ETH"] tomorrow committing
       = (Ok b, committing)
       ∧ (b = true ↔ validSelection ["ETH"] tomorrow).
Proof.
  apply (validateSelectedTokens_decides_selection ["ETH"] tomorrow
           committing).
  reflexivity.
Defined.

(** The commitment of u1 to BTC on the offer of day 101 is accepted. *)
Lemma create_accepts_witness :
  (∃ doc, eval (create today newId u1 o3 ["BTC"]) committing = Ok doc)
  ∧ offers (exec (create today newId u1 o3 ["BTC"]) committing)
    = offers committing.
Proof.
  destruct (create_accepts_iff today newId u1 o3 ["BTC"] committing)
    as (H1 & _ & H3 & _).
  split; [|exact H3]. apply H1. exists tomorrow, u1.
  split; [reflexivity|]. split; [reflexivity|]. split; [by eexists|].
  split; [reflexivity|]. split; [reflexivity|].
  intros p Hp. by apply elem_of_nil in Hp.
Defined.


(** Two tokens for the single pair of the offer of day 101 are refused. *)
Lemma create_wrong_length_witness :
  eval (create today newId u1 o3 ["BTC"; "ETH"]) committing
  = Throw (BadRequestException "Invalid number of selected tokens")
  ∧ portfolios (exec (create today newId u1 o3 ["BTC"; "ETH"])
                  committing)
    = portfolios committing.
Proof.
  apply (create_rejects_wrong_length today newId committing u1 o3
           ["BTC"; "ETH"] tomorrow alice).
  - reflexivity.
  - reflexivity.
  - reflexivity.
  - by vm_compute.
Defined.

(** After BTC, the same user cannot commit to ETH on the same offer. *)
Lemma create_twice_witness :
  eval (create today newId u1 o3 ["ETH"])
       (exec (create today newId u1 o3 ["BTC"]) committing)
  = Throw (BadRequestException "Portfolio for this day already submitted.").
Proof.
  apply (create_twice_rejected today newId u1 o3 ["BTC"] ["ETH"]
           committing committed).
  - reflexivity.
  - reflexivity.
Defined.

(** The second user has committed to the offer of day 101; the commitment
    of the first is stored after it, and no user has two portfolios for
    the offer. *)
Lemma create_invariant_witness :
  portfolios (exec (create today newId u1 o3 ["BTC"]) joined)
  = [bobsPick; committed]
  ∧ onePortfolioPerUserAndOffer
      (portfolios (exec (create today newId u1 o3 ["BTC"]) joined)).
Proof.
  split; [reflexivity|].
  apply (create_keeps_one_portfolio_per_user_and_offer today newId u1 o3
           ["BTC"] joined).
  apply (bool_decide_unpack _). by vm_compute.
Defined.

(** With the identifier of a user and no offer identifier nothing is
    listed; with a string that is no identifier the conversion throws; with
    no criterion the two portfolios are listed. *)
Lemma list_witness :
  list_ (Some (u1 : string)) (Some []) sound
  = (Ok [], setTrace sound [Fetch PortfolioStore])
  ∧ list_ (Some malformed) (Some []) sound = (Throw BSONError, sound)
  ∧ eval (list_ None None) sound = Ok [pickA; pickB].
Proof.
  destruct (list_empty_offerIds_matches_nothing (Some (u1 : string)) sound)
    as [H1 H2].
  destruct (list_empty_offerIds_matches_nothing (Some malformed) sound)
    as [H3 _].
  split; [exact H1|]. split; [exact H3|exact H2].
Defined.

(** u1 has a portfolio for w1 and none for w2; a string one digit short
    makes both calls throw. *)
Lemma existsByUserIdAndOfferId_witness :
  eval (portfolioRepository_existsByUserIdAndOfferId u1 w1) sound = Ok true
  ∧ eval (portfolioRepository_existsByUserIdAndOfferId u1 w2) sound
    = Ok false
  ∧ portfolioRepository_existsByUserIdAndOfferId u1 tooShort sound
    = (Throw BSONError, sound).
Proof.
  pose proof (existsByUserIdAndOfferId_agrees_with_find u1 w1 sound)
    as H1.
  pose proof (existsByUserIdAndOfferId_agrees_with_find u1 w2 sound)
    as H2.
  pose proof (existsByUserIdAndOfferId_agrees_with_find u1 tooShort sound)
    as H3.
  cbn zeta in H1, H2, H3.
  unfold eval. rewrite H1, H2, H3. by vm_compute.
Defined.

(** No portfolio of [sound] has the identifier ...ee01, and zz is no
    identifier. *)
Lemma updateOneById_unknown_witness :
  portfolioRepository_updateOneById unknownId
    (mkUpdatePortfolio (Some true) (Some 7)) sound
  = (Ok None, setTrace sound [Persist PortfolioStore])
  ∧ portfolioRepository_updateOneById malformed
      (mkUpdatePortfolio (Some true) (Some 7)) sound
    = (Throw BSONError, sound).
Proof.
  split.
  - apply (updateOneById_unknown_id unknownId
             (mkUpdatePortfolio (Some true) (Some 7)) sound).
    intros p Hp. apply elem_of_cons in Hp as [->|Hp]; [done|].
    apply elem_of_cons in Hp as [->|Hp]; [done|].
    by apply elem_of_nil in Hp.
  - apply (updateOneById_unknown_id malformed
             (mkUpdatePortfolio (Some true) (Some 7)) sound).
    intros p Hp. done.
Defined.

(** Marking p2 awarded without points keeps its absent points and p1. *)
Lemma updateOneById_known_witness :
  eval (portfolioRepository_updateOneById p2
          (mkUpdatePortfolio (Some true) None)) sound
  = Ok (Some (mkPortfolio p2 u2 w1 ["B"] true None))
  ∧ portfolioById p1
      (portfolios (exec (portfolioRepository_updateOneById p2
                           (mkUpdatePortfolio (Some true) None)) sound))
    = Some pickA.
Proof.
  destruct (updateOneById_updates_that_portfolio pickB
              (mkUpdatePortfolio (Some true) None) sound)
    as (H1 & _ & _ & _ & _ & H6 & _).
  - apply NoDup_by_computation. by vm_compute.
  - right. left.
  - split; [exact H1|]. apply (H6 pickA); [left|done].
Defined.

(** A second run on the store with the portfolio that cannot be scored
    logs the failure of w1 again and changes nothing else. *)
Lemma awardPortfolios_second_run_witness :
  exec award (exec award spoiled)
  = setTrace (exec award spoiled)
      (trace (exec award spoiled)
       ++ [Fetch OfferStore; Fetch PortfolioStore;
           LogError ("Failed to award portfolios for offer: " +:+ w1)
                    notFound]).
Proof.
  rewrite (awardPortfolios_second_run_changes_nothing 0 Z.add spoiled).
  - reflexivity.
  - apply NoDup_by_computation. by vm_compute.
  - apply NoDup_by_computation. by vm_compute.
Defined.

(** The portfolio that picked A is changed by the run, into an awarded
    one. *)
Lemma awardPortfolios_only_pending_witness :
  List.map pid (portfolios (exec award sound)) = [p1; p2]
  ∧ portfolioById p1 (portfolios (exec award sound))
    ≠ Some pickA.
Proof.
  destruct (awardPortfolios_changes_only_scorable_pending 0 Z.add sound
              pickA) as [H1 H2].
  - apply NoDup_by_computation. by vm_compute.
  - apply NoDup_by_computation. by vm_compute.
  - left.
  - split; [exact H1|]. by vm_compute.
Defined.

(** No offer of [unpriced] waits for completion. *)
Lemma awardPortfolios_nothing_waiting_witness :
  award unpriced
  = (Ok (), setTrace unpriced [Fetch OfferStore; Fetch PortfolioStore]).
Proof.
  apply (awardPortfolios_without_waiting_offer 0 Z.add unpriced).
  intros o Ho. apply elem_of_cons in Ho as [->|Ho]; [done|].
  apply elem_of_cons in Ho as [->|Ho]; [done|].
  by apply elem_of_nil in Ho.
Defined.

(** The offer w1 keeps its day and its pricing changes through the run. *)
Lemma awardPortfolios_only_status_witness :
  List.map oid (offers (exec award sound)) = [w1; w2]
  ∧ ∃ x, offerById w1 (offers (exec award sound)) = Some x
         ∧ day x = 99 ∧ pricingChanges x = changes.
Proof.
  destruct (awardPortfolios_changes_only_status 0 Z.add sound scored)
    as (H1 & x & H2 & H3 & _ & H5 & _).
  - apply NoDup_by_computation. by vm_compute.
  - left.
  - split; [exact H1|]. exists x. split; [exact H2|].
    split; [exact H3|exact H5].
Defined.

(** The offer of day 104 is not priced on day 100. *)
Lemma syncOffersPrices_other_offers_witness :
  offerById o4 (offers (exec sync ahead)) = Some queued
  ∧ portfolios (exec sync ahead) = portfolios ahead
  ∧ users (exec sync ahead) = users ahead.
Proof.
  destruct (syncOffersPrices_leaves_other_offers percentage today gateway
              ahead queued) as (H1 & _ & H3 & H4).
  - apply NoDup_by_computation. by vm_compute.
  - right. left.
  - intros [_ Hd]. by vm_compute in Hd.
  - split; [exact H1|]. split; [exact H3|exact H4].
Defined.

(** The offer of day 100 gets a pricing change for DOT and for XRP. *)
Lemma syncOffersPrices_every_token_witness :
  ∃ x, offerById o2 (offers (exec sync unpriced)) = Some x
       ∧ offerStatus x = WaitingForCompletion
       ∧ pricingChanges x !! "DOT" = Some 5
       ∧ pricingChanges x !! "BTC" = None.
Proof.
  destruct (syncOffersPrices_prices_every_token percentage today gateway
              unpriced withoutSol)
    as (x & H1 & H2 & _ & _ & H5 & H6).
  - apply NoDup_by_computation. by vm_compute.
  - right. left.
  - split; [reflexivity|by vm_compute].
  - reflexivity.
  - exists x. split; [exact H1|]. split; [exact H2|]. split.
    + destruct (H5 "DOT") as (p & Hp & Hc); [left|].
      injection Hp as <-. exact Hc.
    + apply H6. intros Hin.
      apply elem_of_cons in Hin as [Hin|Hin]; [done|].
      apply elem_of_cons in Hin as [Hin|Hin]; [done|].
      by apply elem_of_nil in Hin.
Defined.

(** A second sync of [unpriced] changes no offer. *)
Lemma syncOffersPrices_twice_witness :
  offers (exec sync (exec sync unpriced)) = offers (exec sync unpriced).
Proof.
  apply (syncOffersPrices_twice percentage today gateway unpriced).
  apply NoDup_by_computation. by vm_compute.
Defined.

(** DOT can be summed against the offer of day 100 once it is priced. *)
Lemma synced_offer_scores_witness :
  ∃ x, offerById o2 (offers (exec sync unpriced)) = Some x
       ∧ ∃ points,
           reducePoints Z.add (pricingChanges x) 0 (selectedTokens pickDot)
           = Ok points.
Proof.
  destruct (synced_offer_scores_its_tokens 0 Z.add percentage today gateway
              unpriced withoutSol pickDot)
    as (x & H1 & H2 & _).
  - apply NoDup_by_computation. by vm_compute.
  - right. left.
  - split; [reflexivity|by vm_compute].
  - reflexivity.
  - exists x. split; [exact H1|]. apply H2.
    intros t Ht. apply list_elem_of_singleton in Ht as ->. left.
Defined.

(** With offers up to day 101 on day 100, the offers of days 102 to 109
    are appended: the ten days are distinct. *)
Lemma generateOffers_days_witness :
  List.map day (offers (exec generate committing))
  = [100; 101; 102; 103; 104; 105; 106; 107; 108; 109]
  ∧ NoDup (List.map day (offers (exec generate committing)))
  ∧ portfolios (exec generate committing) = portfolios committing.
Proof.
  split; [reflexivity|].
  destruct (generateOffers_keeps_days_unique today dateOf universe sampler
              newId committing) as (H1 & _ & H3 & _).
  - apply (bool_decide_unpack _). by vm_compute.
  - split; [exact H1|exact H3].
Defined.

(** From an empty store on day 100 the next day to generate is 108, and a
    second run generates nothing. *)
Lemma generateOffers_advance_witness :
  nextDayOf today (offers (exec generate fresh)) = 108
  ∧ offers (exec generate (exec generate fresh))
    = offers (exec generate fresh).
Proof.
  destruct (generateOffers_advances_eight_days today dateOf universe
              sampler newId fresh) as (H1 & _ & H3).
  - by vm_compute.
  - split; [exact H1|]. apply H3. by vm_compute.
Defined.

End Runs.
